(** * load-skill.py: the skill catalog, its header parser and its resolver

  A shallow embedding of [scripts/load-skill.py]:
  [parse_frontmatter], [get_all_skills], [search_skills] (its [matches]
  list) and [find_skill_path], over a model of Python's [str] methods,
  of [pathlib] paths and of the file system tree they are evaluated in.

  Text is modelled over the code points 0..255 (Rocq's [ascii]); Python
  compares, strips and lower-cases strings code point by code point, and
  the definitions below follow it on that range. *)

From Stdlib Require Import String Ascii List Bool Arith Lia Sorted Permutation.
From stdpp Require Import base option list strings gmap sorting pretty.

Local Open Scope string_scope.
Local Open Scope list_scope.

(** ** Python's [str] methods *)

Module PyStr.

Definition LF : ascii := "010"%char.
Definition CR : ascii := "013"%char.
Definition nl : string := String LF "".

(** [c.isspace()] for a code point below 256: TAB..CR, FS..US, space,
    NEL and NBSP. *)
Definition isspace (c : ascii) : bool :=
  let n := nat_of_ascii c in
  (((9 <=? n) && (n <=? 13)) || ((28 <=? n) && (n <=? 32))
   || (n =? 133) || (n =? 160))%nat.

(** [c.lower()] for a code point below 256: A..Z and the Latin-1
    capitals (all of 0xC0..0xDE but the multiplication sign) move up
    by 32. *)
Definition lower_char (c : ascii) : ascii :=
  let n := nat_of_ascii c in
  if (((65 <=? n) && (n <=? 90))
      || ((192 <=? n) && (n <=? 222) && negb (n =? 215)))%nat
  then ascii_of_nat (n + 32) else c.

Fixpoint lower (s : string) : string :=
  match s with
  | "" => ""
  | String c r => String (lower_char c) (lower r)
  end.

Fixpoint lstrip (s : string) : string :=
  match s with
  | "" => ""
  | String c r => if isspace c then lstrip r else s
  end.

Fixpoint rstrip (s : string) : string :=
  match s with
  | "" => ""
  | String c r =>
      let r' := rstrip r in
      if isspace c && (r' =? "") then "" else String c r'
  end.

(** [s.strip()] *)
Definition strip (s : string) : string := rstrip (lstrip s).

(** [s.startswith(p)] *)
Fixpoint startswith (p s : string) : bool :=
  match p, s with
  | "", _ => true
  | String a p', String b s' => Ascii.eqb a b && startswith p' s'
  | String _ _, "" => false
  end.

(** [s.endswith(suf)] *)
Fixpoint endswith (suf s : string) : bool :=
  (s =? suf) ||
  match s with
  | "" => false
  | String _ r => endswith suf r
  end.

(** [needle in hay] *)
Fixpoint contains (needle hay : string) : bool :=
  startswith needle hay ||
  match hay with
  | "" => false
  | String _ r => contains needle r
  end.

(** [s.split(sep, 1)] for a one-character [sep], when [sep in s]: the
    text before the first [sep] and the text after it; [None] when
    [sep] does not occur. *)
Fixpoint split_once (sep : ascii) (s : string) : option (string * string) :=
  match s with
  | "" => None
  | String c r =>
      if Ascii.eqb c sep then Some ("", r)
      else match split_once sep r with
           | Some (k, v) => Some (String c k, v)
           | None => None
           end
  end.

(** [s.split(sep)] for a one-character [sep]. *)
Fixpoint split (sep : ascii) (s : string) : list string :=
  match s with
  | "" => [""]
  | String c r =>
      if Ascii.eqb c sep then "" :: split sep r
      else match split sep r with
           | [] => [String c ""]
           | w :: ws => String c w :: ws
           end
  end.

(** Iterating over a file opened in text mode with universal newlines:
    the lines, each with its terminator, where [\r] and [\r\n] are
    read as [\n]. *)
Fixpoint readlines (s : string) : list string :=
  match s with
  | "" => []
  | String c r =>
      if Ascii.eqb c LF then nl :: readlines r
      else if Ascii.eqb c CR then
        match r with
        | String d r' => if Ascii.eqb d LF then nl :: readlines r'
                         else nl :: readlines r
        | "" => [nl]
        end
      else match readlines r with
           | [] => [String c ""]
           | l :: ls => String c l :: ls
           end
  end.

(** [sep.join(ls)] with [sep = "\n"], each line terminated. *)
Definition unlines (ls : list string) : string :=
  foldr (fun l acc => l +:+ nl +:+ acc) "" ls.

End PyStr.

(** ** [pathlib] paths and the file system they are evaluated in *)

Module Pathlib.
Import PyStr.

(** The exceptions the modelled calls can raise. *)
Inductive exn : Set :=
| FileNotFoundError
| NotADirectoryError
| IsADirectoryError
| PermissionError.

Inductive result (A : Type) : Type :=
| Ok (a : A)
| Raise (e : exn).
Arguments Ok {A} a.
Arguments Raise {A} e.

#[global] Instance result_bind : MBind result := fun A B k m =>
  match m with
  | Ok a => k a
  | Raise e => Raise e
  end.

#[global] Instance result_fmap : FMap result := fun A B f m =>
  match m with
  | Ok a => Ok (f a)
  | Raise e => Raise e
  end.

(** A file system object: a regular file whose text can be read, a
    file that [open] refuses (no read permission), or a directory with
    its children in the order [iterdir] yields them. The bytes of a
    readable file are taken to decode. *)
#[warnings="-register-all"] Inductive node : Type :=
| File (text : string)
| NoAccess
| Dir (children : list (string * node)).

(** A POSIX path: its segments below [/]. *)
Definition Path : Type := list string.

(** [Path(s)]: split at [/], empty and [.] segments dropped. *)
Definition parse (s : string) : Path :=
  List.filter (fun w => negb (w =? "") && negb (w =? "."))
              (split "/"%char s).

(** [base / s]: an absolute [s] replaces [base]. (For an [s] that
    begins with exactly two slashes pathlib keeps both; a [Path] here
    does not record them.) *)
Definition joinpath (base : Path) (s : string) : Path :=
  if startswith "/" s then parse s else base ++ parse s.

(** [p.name] *)
Definition name (p : Path) : string := List.last p "".

(** Every segment behind a [/]. *)
Definition render (p : Path) : string :=
  foldr (fun seg acc => "/" +:+ seg +:+ acc) "" p.

(** [str(p)] *)
Definition str (p : Path) : string :=
  match p with
  | [] => "/"
  | _ => render p
  end.

Fixpoint lookup_child (seg : string) (ch : list (string * node)) : option node :=
  match ch with
  | [] => None
  | (n, x) :: rest => if n =? seg then Some x else lookup_child seg rest
  end.

(** Path resolution from the directory [cur], whose ancestors are
    [up] (nearest first): [..] steps to the parent, and stays at [/]. *)
Fixpoint walk (up : list node) (cur : node) (p : Path) : option node :=
  match p with
  | [] => Some cur
  | seg :: rest =>
      match cur with
      | Dir ch =>
          if seg =? ".." then
            match up with
            | [] => walk [] cur rest
            | parent :: up' => walk up' parent rest
            end
          else
            match lookup_child seg ch with
            | Some n => walk (cur :: up) n rest
            | None => None
            end
      | _ => None
      end
  end.

(** The state a command runs in: the file system (the children of
    [/]) and [get_repo_root()]. *)
Record env : Type := Env {
  slash : list (string * node);
  repo_root : Path
}.

Definition stat (E : env) (p : Path) : option node :=
  walk [] (Dir (slash E)) p.

(** [p.exists()], where it returns; the [OSError] it lets through (a
    name that is too long, a directory that may not be searched) is
    outside this model, as it is for [is_dir]. *)
Definition exists_ (E : env) (p : Path) : bool :=
  match stat E p with Some _ => true | None => false end.

(** [p.is_dir()] *)
Definition is_dir (E : env) (p : Path) : bool :=
  match stat E p with Some (Dir _) => true | _ => false end.

(** [p.iterdir()] *)
Definition iterdir (E : env) (p : Path) : result (list Path) :=
  match stat E p with
  | Some (Dir ch) => Ok (List.map (fun e => p ++ [fst e]) ch)
  | Some _ => Raise NotADirectoryError
  | None => Raise FileNotFoundError
  end.

(** [open(p, 'r', encoding='utf-8')] followed by reading the file;
    the [UnicodeDecodeError] of a file that opens and does not decode
    is outside this model. *)
Definition open_read (E : env) (p : Path) : result string :=
  match stat E p with
  | Some (File text) => Ok text
  | Some NoAccess => Raise PermissionError
  | Some (Dir _) => Raise IsADirectoryError
  | None => Raise FileNotFoundError
  end.

End Pathlib.

(** ** The loader *)

Module Skill.
(** The dict [get_all_skills] builds for a skill. *)
Record t : Type := Make {
  directory : string;
  path : string;
  name : string;
  description : string;
  version : string;
  activation : string
}.
End Skill.

Module LoadSkill.
Import PyStr Pathlib.

(** The loop of [parse_frontmatter] over the lines of the file. *)
Fixpoint parse_loop (lines : list string) (metadata : gmap string string)
         (in_frontmatter : bool) : gmap string string :=
  match lines with
  | [] => metadata
  | line :: rest =>
      let line := strip line in
      if line =? "---" then
        if negb in_frontmatter then parse_loop rest metadata true
        else metadata
      else if in_frontmatter && contains ":" line then
        match split_once ":"%char line with
        | Some (key, value) =>
            parse_loop rest (<[strip key := strip value]> metadata)
                       in_frontmatter
        | None => parse_loop rest metadata in_frontmatter
        end
      else parse_loop rest metadata in_frontmatter
  end.

(** [parse_frontmatter] on the text of the file. *)
Definition parse_text (text : string) : gmap string string :=
  parse_loop (readlines text) ∅ false.

Definition parse_frontmatter (E : env) (skill_path : Path)
  : result (gmap string string) :=
  text ← open_read E skill_path;
  Ok (parse_text text).

(** [metadata.get(key, dflt)] *)
Definition get (metadata : gmap string string) (key dflt : string) : string :=
  default dflt (metadata !! key).

Definition make_skill (item skill_md : Path) (metadata : gmap string string)
  : Skill.t :=
  {| Skill.directory := name item;
     Skill.path := str skill_md;
     Skill.name := get metadata "name" (name item);
     Skill.description := get metadata "description" "No description";
     Skill.version := get metadata "version" "1.0";
     Skill.activation := get metadata "activation" "" |}.

(** The loop of [get_all_skills] over the children of the root. *)
Fixpoint scan_loop (E : env) (items : list Path) (skills : list Skill.t)
  : result (list Skill.t) :=
  match items with
  | [] => Ok skills
  | item :: rest =>
      if is_dir E item && endswith "-skill" (name item) then
        let skill_md := item ++ ["SKILL.md"] in
        if exists_ E skill_md then
          metadata ← parse_frontmatter E skill_md;
          scan_loop E rest (skills ++ [make_skill item skill_md metadata])
        else scan_loop E rest skills
      else scan_loop E rest skills
  end.

(** [sorted(skills, key=...)]: the stable sort by the key, under
    Python's comparison of strings (code point by code point). *)
Fixpoint insert_by (key : Skill.t -> string) (x : Skill.t)
         (l : list Skill.t) : list Skill.t :=
  match l with
  | [] => [x]
  | y :: l' =>
      if String.ltb (key y) (key x) then y :: insert_by key x l'
      else x :: l
  end.

Definition sorted (key : Skill.t -> string) (l : list Skill.t)
  : list Skill.t :=
  foldr (insert_by key) [] l.

Definition get_all_skills (E : env) : result (list Skill.t) :=
  items ← iterdir E (repo_root E);
  skills ← scan_loop E items [];
  Ok (sorted Skill.name skills).

(** The filter of [search_skills]. *)
Definition keyword_matches (keyword_lower : string) (skill : Skill.t) : bool :=
  contains keyword_lower (lower (Skill.name skill))
  || contains keyword_lower (lower (Skill.description skill))
  || contains keyword_lower (lower (Skill.activation skill)).

(** [search_skills]: its list [matches], which it then prints. *)
Definition search_skills (E : env) (keyword : string)
  : result (list Skill.t) :=
  skills ← get_all_skills E;
  let keyword_lower := lower keyword in
  Ok (List.filter (keyword_matches keyword_lower) skills).

(** A directory probe of [find_skill_path]: [skill_dir] exists and
    holds a [SKILL.md]. *)
Definition probe (E : env) (skill_dir : Path) : option Path :=
  if exists_ E skill_dir && exists_ E (skill_dir ++ ["SKILL.md"])
  then Some (skill_dir ++ ["SKILL.md"]) else None.

(** The fuzzy loop of [find_skill_path]. *)
Fixpoint fuzzy (skill_name : string) (skills : list Skill.t) : option Path :=
  match skills with
  | [] => None
  | skill :: rest =>
      if contains (lower skill_name) (lower (Skill.name skill))
      then Some (parse (Skill.path skill))
      else fuzzy skill_name rest
  end.

Definition find_skill_path (E : env) (skill_name : string)
  : result (option Path) :=
  match probe E (joinpath (repo_root E) skill_name) with
  | Some p => Ok (Some p)
  | None =>
      match
        (if negb (endswith "-skill" skill_name)
         then probe E (joinpath (repo_root E) (skill_name +:+ "-skill"))
         else None)
      with
      | Some p => Ok (Some p)
      | None =>
          skills ← get_all_skills E;
          Ok (fuzzy skill_name skills)
      end
  end.

End LoadSkill.

(** ** The commands *)

(** [class Colors]: the ANSI escape sequences. *)
Module Colors.

Definition ESC : ascii := "027"%char.
Definition HEADER : string := String ESC "[95m".
Definition BLUE : string := String ESC "[94m".
Definition CYAN : string := String ESC "[96m".
Definition GREEN : string := String ESC "[92m".
Definition YELLOW : string := String ESC "[93m".
Definition RED : string := String ESC "[91m".
Definition ENDC : string := String ESC "[0m".
Definition BOLD : string := String ESC "[1m".
Definition UNDERLINE : string := String ESC "[4m".

End Colors.

Module Cli.
Import PyStr Pathlib LoadSkill Colors.

(** What a command does to the world outside: a call of [print] with
    its text (the newline [print] adds is left out), or a call of
    [subprocess.run] with the command line and the text fed to it. *)
Inductive event : Type :=
| Stdout (text : string)
| Subprocess (argv : list string) (input : string).

(** How [subprocess.run(..., check=True)] ends: it returns, the tool
    exits with a non-zero status ([CalledProcessError]), the tool is
    not installed ([FileNotFoundError]), or the call raises another
    error (a tool that may not be executed, say), which the [except]
    clause of [copy_to_clipboard] does not catch. *)
Inductive run_outcome : Set :=
| Completed
| CalledProcessError
| ToolNotFound
| Uncaught (e : exn).

(** The machine a command runs on: [sys.platform], what running a tool
    on an input leads to, and the text of the check mark U+2713, which
    lies outside the code points modelled here. *)
Record host : Type := Host {
  platform : string;
  subprocess_run : list string -> string -> run_outcome;
  check_mark : string
}.

(** [s * n] *)
Fixpoint times (s : string) (n : nat) : string :=
  match n with
  | 0 => ""
  | S n' => s +:+ times s n'
  end.

(** [sep.join(ls)] *)
Fixpoint join (sep : string) (ls : list string) : string :=
  match ls with
  | [] => ""
  | [l] => l
  | l :: rest => l +:+ sep +:+ join sep rest
  end.

(** The f-string fragment [{Colors.CYAN}{'='*80}{Colors.ENDC}]. *)
Definition rule : string := CYAN +:+ times "=" 80 +:+ ENDC.

(** [f.read()] on a file opened in text mode: the lines as iteration
    yields them, one after the other. *)
Definition read (text : string) : string :=
  foldr String.append "" (readlines text).

(** [with open(p, 'r', encoding='utf-8') as f: content = f.read()] *)
Definition read_file (E : env) (p : Path) : result string :=
  text ← open_read E p;
  Ok (read text).

(** The loop of [list_skills], [i] being the number of the next entry. *)
Fixpoint list_loop (i : nat) (skills : list Skill.t) : list event :=
  match skills with
  | [] => []
  | skill :: rest =>
      [Stdout (BOLD +:+ pretty i +:+ ". " +:+ Skill.name skill +:+ ENDC);
       Stdout ("   " +:+ CYAN +:+ "Directory:" +:+ ENDC +:+ " "
               +:+ Skill.directory skill);
       Stdout ("   " +:+ GREEN +:+ "Description:" +:+ ENDC +:+ " "
               +:+ Skill.description skill);
       Stdout ("   " +:+ YELLOW +:+ "Version:" +:+ ENDC +:+ " "
               +:+ Skill.version skill);
       Stdout ""]
      ++ list_loop (S i) rest
  end.

Definition list_skills (E : env) : result (list event) :=
  skills ← get_all_skills E;
  Ok ([Stdout (nl +:+ BOLD +:+ HEADER +:+ "Claude Skills Collection" +:+ ENDC);
       Stdout (rule +:+ nl)]
      ++ list_loop 1 skills
      ++ [Stdout rule;
          Stdout ("Total skills: " +:+ pretty (length skills) +:+ nl)]).

Definition show_skill (E : env) (skill_name : string) : result (list event) :=
  skill_path ← find_skill_path E skill_name;
  match skill_path with
  | None =>
      Ok [Stdout (RED +:+ "Error: Skill '" +:+ skill_name +:+ "' not found."
                  +:+ ENDC);
          Stdout ("Use '" +:+ CYAN +:+ "python load-skill.py list" +:+ ENDC
                  +:+ "' to see available skills.")]
  | Some skill_path =>
      content ← read_file E skill_path;
      Ok [Stdout (nl +:+ BOLD +:+ HEADER +:+ "Skill Content:" +:+ ENDC +:+ " "
                  +:+ skill_name);
          Stdout (rule +:+ nl);
          Stdout content;
          Stdout (nl +:+ rule +:+ nl)]
  end.

(** The tool [copy_to_clipboard] runs on a platform, if any. *)
Definition clipboard_tool (platform : string) : option (list string) :=
  if platform =? "darwin" then Some ["pbcopy"]
  else if platform =? "linux" then Some ["xclip"; "-selection"; "clipboard"]
  else if platform =? "win32" then Some ["clip"]
  else None.

(** The two lines printed at the end of the [try] block. *)
Definition copied (H : host) : list event :=
  [Stdout (GREEN +:+ check_mark H +:+ ENDC
           +:+ " Skill content copied to clipboard!");
   Stdout (CYAN
           +:+ "Paste it into your Claude conversation to activate the skill."
           +:+ ENDC)].

Definition copy_to_clipboard (E : env) (H : host) (skill_name : string)
  : result (list event) :=
  skill_path ← find_skill_path E skill_name;
  match skill_path with
  | None =>
      Ok [Stdout (RED +:+ "Error: Skill '" +:+ skill_name +:+ "' not found."
                  +:+ ENDC)]
  | Some skill_path =>
      content ← read_file E skill_path;
      match clipboard_tool (platform H) with
      | None => Ok (copied H)
      | Some tool =>
          match subprocess_run H tool content with
          | Completed => Ok (Subprocess tool content :: copied H)
          | CalledProcessError | ToolNotFound =>
              Ok [Subprocess tool content;
                  Stdout (YELLOW
                          +:+ "Warning: Could not copy to clipboard automatically."
                          +:+ ENDC);
                  Stdout (CYAN +:+ "Manual copy: cat " +:+ str skill_path
                          +:+ " | pbcopy" +:+ ENDC)]
          | Uncaught e => Raise e
          end
      end
  end.

(** The loop of [search_skills] over its matches. *)
Fixpoint search_loop (matches : list Skill.t) : list event :=
  match matches with
  | [] => []
  | skill :: rest =>
      [Stdout (BOLD +:+ Skill.name skill +:+ ENDC);
       Stdout ("   " +:+ CYAN +:+ "Directory:" +:+ ENDC +:+ " "
               +:+ Skill.directory skill);
       Stdout ("   " +:+ GREEN +:+ "Description:" +:+ ENDC +:+ " "
               +:+ Skill.description skill);
       Stdout ""]
      ++ search_loop rest
  end.

(** [search_skills] with what it prints. *)
Definition search_command (E : env) (keyword : string) : result (list event) :=
  matches ← search_skills E keyword;
  match matches with
  | [] =>
      Ok [Stdout (YELLOW +:+ "No skills found matching '" +:+ keyword +:+ "'."
                  +:+ ENDC)]
  | _ =>
      Ok ([Stdout (nl +:+ BOLD +:+ HEADER +:+ "Search Results for '" +:+ keyword
                   +:+ "':" +:+ ENDC);
           Stdout (rule +:+ nl)]
          ++ search_loop matches
          ++ [Stdout (CYAN +:+ "Found " +:+ pretty (length matches)
                      +:+ " matching skill(s)." +:+ ENDC +:+ nl)])
  end.

(** [print_usage], [doc] being the docstring of the module. *)
Definition print_usage (doc : string) : list event := [Stdout doc].

(** [main] on [sys.argv]: what the command does and the exit status of
    the process, 1 after [sys.exit(1)] and 0 when [main] returns. *)
Definition main (E : env) (H : host) (doc : string) (argv : list string)
  : result (list event * nat) :=
  if (length argv <? 2)%nat then Ok (print_usage doc, 1)
  else
    let command := lower (nth 1 argv "") in
    if command =? "list" then
      out ← list_skills E; Ok (out, 0)
    else if (command =? "show") && (3 <=? length argv)%nat then
      out ← show_skill E (nth 2 argv ""); Ok (out, 0)
    else if (command =? "copy") && (3 <=? length argv)%nat then
      out ← copy_to_clipboard E H (nth 2 argv ""); Ok (out, 0)
    else if (command =? "search") && (3 <=? length argv)%nat then
      out ← search_command E (join " " (drop 2 argv)); Ok (out, 0)
    else Ok (print_usage doc, 1).

End Cli.

(** ** Notions the statements are phrased in *)

Module Spec.
Import PyStr Pathlib LoadSkill.

(** Whitespace only. *)
Fixpoint all_space (s : string) : bool :=
  match s with
  | "" => true
  | String c r => isspace c && all_space r
  end.

(** The character [c] does not occur in [s]. *)
Fixpoint free_of (c : ascii) (s : string) : bool :=
  match s with
  | "" => true
  | String d r => negb (Ascii.eqb d c) && free_of c r
  end.

(** No line break inside. *)
Definition one_line (s : string) : bool := free_of LF s && free_of CR s.

(** The test of [parse_frontmatter] for a delimiter, on a line as the
    file yields it. *)
Definition is_delimiter (line : string) : bool := strip line =? "---".

(** A header line [key: value], given by the text before its first
    colon and the text after it. *)
Definition field_line (kv : string * string) : string :=
  kv.1 +:+ ":" +:+ kv.2.

(** A well-formed header line: no colon before the one that splits it,
    and no line break. *)
Definition well_formed (kv : string * string) : bool :=
  free_of ":" kv.1 && one_line kv.1 && one_line kv.2.

(** The value of the last line of the header whose key is [key]; keys
    and values are taken with surrounding whitespace removed. *)
Definition last_value (key : string) (fields : list (string * string))
  : option string :=
  (fun kv => strip kv.2) <$> last (filter (fun kv => strip kv.1 = key) fields).

(** A document: the opening delimiter, the header lines, the closing
    delimiter, then [body]. *)
Definition document (fields : list (string * string)) (body : string) : string :=
  unlines ("---" :: List.map field_line fields ++ ["---"]) +:+ body.

(** A child of the root the scan makes an entry for: a directory whose
    name ends in [-skill] and in which a [SKILL.md] exists. *)
Definition candidate (E : env) (item : Path) : bool :=
  is_dir E item && endswith "-skill" (name item)
  && exists_ E (item ++ ["SKILL.md"]).

(** The [SKILL.md] of [item] can be opened and read. *)
Definition readable (E : env) (item : Path) : Prop :=
  exists text, open_read E (item ++ ["SKILL.md"]) = Ok text.

(** The text of a file, empty when it cannot be read. *)
Definition text_of (E : env) (p : Path) : string :=
  match open_read E p with
  | Ok text => text
  | Raise _ => ""
  end.

(** The entry of a candidate whose [SKILL.md] can be read. *)
Definition entry (E : env) (item : Path) : Skill.t :=
  make_skill item (item ++ ["SKILL.md"])
             (parse_text (text_of E (item ++ ["SKILL.md"]))).

(** Ascending by a key, under the comparison of strings code point by
    code point. *)
Definition key_le (key : Skill.t -> string) (a b : Skill.t) : Prop :=
  String.leb (key a) (key b) = true.

(** Ascending by [displayName]. *)
Definition name_le : Skill.t -> Skill.t -> Prop := key_le Skill.name.

(** An ASCII capital, an ASCII small letter. *)
Definition is_capital (c : ascii) : bool :=
  ((65 <=? nat_of_ascii c) && (nat_of_ascii c <=? 90))%nat.

Definition is_small (c : ascii) : bool :=
  ((97 <=? nat_of_ascii c) && (nat_of_ascii c <=? 122))%nat.

(** [hay] contains [needle] as a substring, case ignored: the
    lower-cased [hay] is some text, the lower-cased [needle], some text. *)
Definition icontains (needle hay : string) : Prop :=
  exists pre post, lower hay = pre +:+ lower needle +:+ post.

(** The entries a search for [keyword] is to return. *)
Definition matches_keyword (keyword : string) (skill : Skill.t) : Prop :=
  icontains keyword (Skill.name skill)
  \/ icontains keyword (Skill.description skill)
  \/ icontains keyword (Skill.activation skill).

(** File names hold no [/]: the condition on the names in a file
    system tree. *)
Fixpoint wf_node (n : node) : bool :=
  match n with
  | Dir children =>
      forallb (fun e => free_of "/" (fst e) && wf_node (snd e)) children
  | _ => true
  end.

Definition wf_fs (E : env) : bool := wf_node (Dir (slash E)).

End Spec.

(** ** Inputs the statements are evaluated at *)

Module Examples.
Import PyStr Pathlib LoadSkill.

(** A title line, then a delimited header. *)
Definition late_header : string :=
  unlines ["# Title"; "---"; "name: x"; "---"].

(** A header whose opening delimiter is indented and padded. *)
Definition padded_header : string :=
  unlines ["  ---  "; "name: x"; "---"].

Definition skill_dir (text : string) : node := Dir [("SKILL.md", File text)].

Definition named (n : string) : string :=
  unlines ["---"; "name: " +:+ n; "---"; "# " +:+ n].

(** Three skills, listed by the directory as Zeta, alpha, Beta. *)
Definition abc_env : env :=
  Env [("repo", Dir [("zeta-skill", skill_dir (named "Zeta"));
                     ("alpha-skill", skill_dir (named "alpha"));
                     ("beta-skill", skill_dir (named "Beta"));
                     ("scripts", Dir [("load-skill.py", File "")])])]
      ["repo"].

(** A skill whose [SKILL.md] cannot be opened, next to two that can;
    the text of the last has no header. *)
Definition locked_env : env :=
  Env [("repo", Dir [("a-skill", skill_dir (named "A"));
                     ("b-skill", Dir [("SKILL.md", NoAccess)]);
                     ("c-skill", skill_dir "just text")])]
      ["repo"].

(** The same root with the second file readable. *)
Definition unlocked_env : env :=
  Env [("repo", Dir [("a-skill", skill_dir (named "A"));
                     ("b-skill", skill_dir (named "B"));
                     ("c-skill", skill_dir "just text")])]
      ["repo"].

(** A skill that mentions its keyword in the activation field only. *)
Definition hinted : string :=
  unlines ["---"; "name: Tool"; "description: Does things";
           "activation: when the user says Deploy"; "---"].

Definition hinted_env : env :=
  Env [("repo", Dir [("tool-skill", skill_dir hinted);
                     ("other-skill", skill_dir (named "Other"))])]
      ["repo"].

(** Two skills whose display names both contain [great]. *)
Definition great_env : env :=
  Env [("repo", Dir [("b-skill", skill_dir (named "The Great Tool"));
                     ("a-skill", skill_dir (named "Great Tool"));
                     ("c-skill", skill_dir (named "Else"))])]
      ["repo"].

(** A single skill, [foo-skill]. *)
Definition foo_env : env :=
  Env [("repo", Dir [("foo-skill", skill_dir (named "Foo"));
                     ("README.md", File "skills")])]
      ["repo"].

(** [foo-skill] next to a directory [foo] that holds a [SKILL.md] too. *)
Definition shadow_env : env :=
  Env [("repo", Dir [("foo-skill", skill_dir (named "Foo"));
                     ("foo", skill_dir (named "Draft"))])]
      ["repo"].

End Examples.

(** ** Further notions, for the properties beyond the claims *)

Module Props.
Import PyStr Pathlib LoadSkill Spec.

(** The lines [ls], each followed by the line ending [eol]. *)
Definition join_lines (eol : string) (ls : list string) : string :=
  foldr (fun l acc => l +:+ eol +:+ acc) "" ls.

Definition CRLF : string := String CR (String LF "").

(** A line the header parser can react to: a delimiter, or a line with
    a colon. *)
Definition relevant (line : string) : bool :=
  is_delimiter line || contains ":" (strip line).

(** What holds of every field the parser records. *)
Definition clean (metadata : gmap string string) : Prop :=
  forall key value,
    metadata !! key = Some value ->
    strip key = key /\ strip value = value /\ free_of ":" key = true.

(** A name as a directory holds it: not empty, not [.], no [/]. *)
Definition proper (seg : string) : bool :=
  free_of "/" seg && negb (seg =? "") && negb (seg =? ".").

(** All names in the tree are proper and none is [..]. *)
Fixpoint proper_node (n : node) : bool :=
  match n with
  | Dir children =>
      forallb (fun e => proper (fst e) && negb (fst e =? "..")
                        && proper_node (snd e)) children
  | _ => true
  end.

Definition proper_fs (E : env) : bool := proper_node (Dir (slash E)).

(** Path resolution that keeps track of where it is: [here] holds the
    names from [/] down to [cur], nearest first, as [up] holds the
    directories. *)
Fixpoint locate (here : list string) (up : list node) (cur : node) (p : Path)
  : option (list string * list node * node) :=
  match p with
  | [] => Some (here, up, cur)
  | seg :: rest =>
      match cur with
      | Dir ch =>
          if seg =? ".." then
            match up with
            | [] => locate [] [] cur rest
            | parent :: up' => locate (tail here) up' parent rest
            end
          else
            match lookup_child seg ch with
            | Some n => locate (seg :: here) (cur :: up) n rest
            | None => None
            end
      | _ => None
      end
  end.

(** The place a path leads to: the names from [/] down to the object
    it reaches, every [..] resolved. In this tree, which has no links,
    two paths that lead to the same place lead to the same document. *)
Definition realpath (E : env) (p : Path) : option Path :=
  (fun st => List.rev st.1.1) <$> locate [] [] (Dir (slash E)) p.

(** Neither the exact probe nor the probe with [-skill] appended finds
    a container for [skill_name]. *)
Definition probes_miss (E : env) (skill_name : string) : Prop :=
  probe E (joinpath (repo_root E) skill_name) = None
  /\ (endswith "-skill" skill_name = false ->
      probe E (joinpath (repo_root E) (skill_name +:+ "-skill")) = None).

(** The command lines [main] answers with the usage text: no command
    word, a word that is no command, or [show], [copy] or [search]
    without an operand. *)
Definition needs_usage (argv : list string) : bool :=
  match argv with
  | [] | [_] => true
  | [_; cmd] => negb (lower cmd =? "list")
  | _ :: cmd :: _ =>
      negb ((lower cmd =? "list") || (lower cmd =? "show")
            || (lower cmd =? "copy") || (lower cmd =? "search"))
  end.

End Props.

(** ** Further inputs *)

Module Inputs.
Import PyStr Pathlib LoadSkill Examples.


(** A skill directory whose [SKILL.md] is a directory itself. *)
Definition nested_env : env :=
  Env [("repo", Dir [("odd-skill", Dir [("SKILL.md", Dir [])])])] ["repo"].

(** A Linux machine whose clipboard tool works, one where it is not
    installed, and a machine of another kind. *)
Definition linux : Cli.host :=
  Cli.Host "linux" (fun _ _ => Cli.Completed) "v".


Definition freebsd : Cli.host :=
  Cli.Host "freebsd14" (fun _ _ => Cli.Completed) "v".

(** A skill directory that holds a subdirectory next to its
    [SKILL.md]. *)
Definition dotdot_env : env :=
  Env [("repo", Dir [("foo-skill",
                      Dir [("SKILL.md", File (named "Foo"));
                           ("sub", Dir [])])])]
      ["repo"].

End Inputs.

(** ** Facts about the string methods *)

Section str_facts.
Import PyStr Spec.

Lemma str_app_cons c s t : String c s +:+ t = String c (s +:+ t).
Proof. reflexivity. Qed.

Lemma str_app_nil_l s : "" +:+ s = s.
Proof. reflexivity. Qed.

Lemma str_app_nil_r s : s +:+ "" = s.
Proof. induction s as [|c s IH]; [done|]. by rewrite str_app_cons, IH. Qed.

Lemma str_app_assoc s t u : (s +:+ t) +:+ u = s +:+ t +:+ u.
Proof. induction s as [|c s IH]; [done|]. by rewrite !str_app_cons, IH. Qed.

Lemma startswith_spec p s :
  startswith p s = true <-> exists t, s = p +:+ t.
Proof.
  revert s. induction p as [|a p IH]; intros s; simpl.
  - split; [intros _; by exists s|done].
  - destruct s as [|b s]; simpl.
    + split; [done|]. intros [t Ht]. discriminate.
    + rewrite andb_true_iff, Ascii.eqb_eq, IH. split.
      * intros [-> [t ->]]. by exists t.
      * intros [t Ht]. rewrite str_app_cons in Ht. injection Ht as -> ->. eauto.
Qed.

(** [needle in hay] holds exactly when [hay] is some text, then
    [needle], then some text. *)
Lemma contains_spec needle hay :
  contains needle hay = true <->
  exists pre post, hay = pre +:+ needle +:+ post.
Proof.
  induction hay as [|c hay IH]; simpl.
  - rewrite orb_false_r, startswith_spec. split.
    + intros [t Ht]. by exists "", t.
    + intros [pre [post H]]. destruct pre; [by exists post|discriminate].
  - rewrite orb_true_iff, startswith_spec, IH. split.
    + intros [[t Ht]|[pre [post Ht]]].
      * by exists "", t.
      * exists (String c pre), post. by rewrite str_app_cons, Ht.
    + intros [pre [post Ht]]. destruct pre as [|d pre].
      * left. by exists post.
      * right. rewrite str_app_cons in Ht. injection Ht as -> ->. eauto.
Qed.

Lemma endswith_nil suf : endswith suf "" = ("" =? suf).
Proof. simpl. apply orb_false_r. Qed.

Lemma endswith_cons suf c s :
  endswith suf (String c s) = (String c s =? suf) || endswith suf s.
Proof. destruct s; reflexivity. Qed.

Lemma endswith_spec suf s :
  endswith suf s = true <-> exists pre, s = pre +:+ suf.
Proof.
  induction s as [|c s IH].
  - rewrite endswith_nil, String.eqb_eq. split.
    + intros <-. by exists "".
    + intros [pre H]. destruct pre; [done|discriminate].
  - rewrite endswith_cons, orb_true_iff, String.eqb_eq, IH. split.
    + intros [<-|[pre ->]]; [by exists ""|by exists (String c pre)].
    + intros [pre H]. destruct pre as [|d pre].
      * left. done.
      * right. rewrite str_app_cons in H. injection H as -> ->. eauto.
Qed.

Lemma lstrip_app_space a b : all_space a = true -> lstrip (a +:+ b) = lstrip b.
Proof.
  induction a as [|c a IH]; [done|]. rewrite str_app_cons. simpl.
  intros [Hc Ha]%andb_true_iff. rewrite Hc. auto.
Qed.

Lemma lstrip_app a c w :
  isspace c = false -> lstrip (a +:+ String c w) = lstrip a +:+ String c w.
Proof.
  intros Hc. induction a as [|d a IH].
  - rewrite !str_app_nil_l. simpl. by rewrite Hc.
  - rewrite str_app_cons. simpl. destruct (isspace d); [done|].
    by rewrite str_app_cons.
Qed.

Lemma lstrip_decomp s :
  exists pre, s = pre +:+ lstrip s /\ all_space pre = true.
Proof.
  induction s as [|c s (pre & Hs & Hpre)]; [by exists ""|]. simpl.
  destruct (isspace c) eqn:Hc.
  - exists (String c pre). rewrite str_app_cons, <- Hs. simpl. by rewrite Hc.
  - by exists "".
Qed.

Lemma lstrip_idem s : lstrip (lstrip s) = lstrip s.
Proof.
  induction s as [|c s IH]; [done|]. simpl.
  destruct (isspace c) eqn:Hc; [done|]. simpl. by rewrite Hc.
Qed.

Lemma rstrip_nil_iff s : rstrip s = "" <-> all_space s = true.
Proof.
  induction s as [|c s IH]; simpl; [done|].
  destruct (isspace c); simpl.
  - destruct (String.eqb_spec (rstrip s) "") as [E|E].
    + rewrite <- IH. done.
    + split; [done|]. intros H. by apply IH in H.
  - done.
Qed.

Lemma rstrip_app_space a b : all_space b = true -> rstrip (a +:+ b) = rstrip a.
Proof.
  intros Hb. induction a as [|c a IH].
  - rewrite str_app_nil_l. by apply rstrip_nil_iff.
  - rewrite str_app_cons. simpl. by rewrite IH.
Qed.

Lemma rstrip_app a c w :
  isspace c = false -> rstrip (a +:+ String c w) = a +:+ String c (rstrip w).
Proof.
  intros Hc. induction a as [|d a IH].
  - rewrite !str_app_nil_l. simpl. by rewrite Hc.
  - rewrite !str_app_cons. simpl. rewrite IH.
    destruct a; rewrite ?str_app_nil_l, ?str_app_cons; simpl; by rewrite andb_false_r.
Qed.

Lemma rstrip_decomp s :
  exists post, s = rstrip s +:+ post /\ all_space post = true.
Proof.
  induction s as [|c s (post & Hs & Hpost)]; [by exists ""|]. simpl.
  destruct (isspace c) eqn:Hc; simpl.
  - destruct (String.eqb_spec (rstrip s) "") as [E|E].
    + exists (String c s). split; [done|]. simpl. rewrite Hc. simpl.
      by apply rstrip_nil_iff.
    + exists post. by rewrite str_app_cons, <- Hs.
  - exists post. by rewrite str_app_cons, <- Hs.
Qed.

Lemma rstrip_idem s : rstrip (rstrip s) = rstrip s.
Proof.
  destruct (rstrip_decomp s) as (post & Hs & Hpost).
  rewrite Hs at 2. by rewrite rstrip_app_space.
Qed.

Lemma lstrip_rstrip s : lstrip (rstrip s) = rstrip (lstrip s).
Proof.
  induction s as [|c s IH]; [done|]. simpl.
  destruct (isspace c) eqn:Hc; simpl.
  - destruct (String.eqb_spec (rstrip s) "") as [E|E].
    + rewrite <- IH, E. done.
    + simpl. by rewrite Hc.
  - by rewrite Hc.
Qed.

Lemma strip_lstrip s : strip (lstrip s) = strip s.
Proof. unfold strip. by rewrite lstrip_idem. Qed.

Lemma strip_rstrip s : strip (rstrip s) = strip s.
Proof. unfold strip. by rewrite <- !lstrip_rstrip, rstrip_idem. Qed.

Lemma strip_app_space_r s t : all_space t = true -> strip (s +:+ t) = strip s.
Proof.
  intros Ht. unfold strip.
  by rewrite <- !lstrip_rstrip, rstrip_app_space.
Qed.

End str_facts.

(** ** Facts about the header parser *)

Section parser_facts.
Import PyStr LoadSkill Spec.

Lemma readlines_line l t :
  one_line l = true -> readlines (l +:+ nl +:+ t) = (l +:+ nl) :: readlines t.
Proof.
  unfold one_line. induction l as [|c l IH]; [done|].
  rewrite !str_app_cons. simpl.
  intros [[Hlf Hl]%andb_true_iff [Hcr Hr]%andb_true_iff]%andb_true_iff.
  apply negb_true_iff in Hlf, Hcr. rewrite Hlf, Hcr.
  rewrite IH; [done|]. by rewrite Hl, Hr.
Qed.

Lemma readlines_unlines ls t :
  Forall (fun l => one_line l = true) ls ->
  readlines (unlines ls +:+ t) = List.map (fun l => l +:+ nl) ls ++ readlines t.
Proof.
  induction 1 as [|l ls Hl _ IH]; [done|].
  simpl. rewrite !str_app_assoc, readlines_line, IH; done.
Qed.

Lemma parse_loop_skip pre rest metadata :
  Forall (fun l => is_delimiter l = false) pre ->
  parse_loop (pre ++ rest) metadata false = parse_loop rest metadata false.
Proof.
  induction 1 as [|l pre Hl _ IH]; [done|].
  unfold is_delimiter in Hl. simpl. by rewrite Hl.
Qed.

Lemma parse_loop_open l rest metadata :
  is_delimiter l = true ->
  parse_loop (l :: rest) metadata false = parse_loop rest metadata true.
Proof. unfold is_delimiter. intros Hl. simpl. by rewrite Hl. Qed.

Lemma parse_loop_close l rest metadata :
  is_delimiter l = true -> parse_loop (l :: rest) metadata true = metadata.
Proof. unfold is_delimiter. intros Hl. simpl. by rewrite Hl. Qed.

Lemma delimiter_iff line :
  is_delimiter line = true <->
  exists pre post, line = pre +:+ "---" +:+ post
                   /\ all_space pre = true /\ all_space post = true.
Proof.
  unfold is_delimiter, strip. rewrite String.eqb_eq. split.
  - intros H.
    destruct (lstrip_decomp line) as (pre & Hline & Hpre).
    destruct (rstrip_decomp (lstrip line)) as (post & Hmid & Hpost).
    exists pre, post. rewrite H in Hmid. by rewrite <- Hmid.
  - intros (pre & post & -> & Hpre & Hpost).
    rewrite lstrip_app_space by done.
    change (lstrip ("---" +:+ post)) with ("---" +:+ post).
    by rewrite rstrip_app_space.
Qed.

Lemma parse_loop_cons raw rest metadata in_frontmatter :
  parse_loop (raw :: rest) metadata in_frontmatter =
  let line := strip raw in
  if line =? "---" then
    if negb in_frontmatter then parse_loop rest metadata true else metadata
  else if in_frontmatter && contains ":" line then
    match split_once ":"%char line with
    | Some (key, value) =>
        parse_loop rest (<[strip key := strip value]> metadata) in_frontmatter
    | None => parse_loop rest metadata in_frontmatter
    end
  else parse_loop rest metadata in_frontmatter.
Proof. reflexivity. Qed.

Lemma free_of_app c a b : free_of c (a +:+ String c b) = false.
Proof.
  induction a as [|d a IH]; rewrite ?str_app_nil_l, ?str_app_cons; simpl.
  - by rewrite Ascii.eqb_refl.
  - by rewrite IH, andb_false_r.
Qed.

Lemma free_of_lstrip c s : free_of c s = true -> free_of c (lstrip s) = true.
Proof.
  induction s as [|d s IH]; [done|]. simpl.
  intros H. destruct (isspace d); [|done].
  apply andb_true_iff in H as [_ H]. auto.
Qed.

Lemma split_once_app c a b :
  free_of c a = true -> split_once c (a +:+ String c b) = Some (a, b).
Proof.
  induction a as [|d a IH]; rewrite ?str_app_nil_l, ?str_app_cons; simpl.
  - by rewrite Ascii.eqb_refl.
  - intros [Hd Ha]%andb_true_iff. apply negb_true_iff in Hd.
    by rewrite Hd, IH.
Qed.

(** The text a header line is reduced to before it is inspected. *)
Lemma strip_field k0 w :
  strip (k0 +:+ String ":" w) = lstrip k0 +:+ String ":" (rstrip w).
Proof. unfold strip. by rewrite lstrip_app, rstrip_app. Qed.

Lemma parse_loop_field k0 v0 post rest metadata :
  free_of ":" k0 = true -> all_space post = true ->
  parse_loop ((k0 +:+ ":" +:+ v0 +:+ post) :: rest) metadata true =
  parse_loop rest (<[strip k0 := strip v0]> metadata) true.
Proof.
  intros Hk Hpost. rewrite parse_loop_cons.
  change (k0 +:+ ":" +:+ v0 +:+ post) with (k0 +:+ String ":" (v0 +:+ post)).
  rewrite strip_field. cbv zeta.
  destruct (String.eqb_spec (lstrip k0 +:+ String ":" (rstrip (v0 +:+ post))) "---")
    as [E|_].
  { apply (f_equal (free_of ":")) in E. by rewrite free_of_app in E. }
  assert (contains ":" (lstrip k0 +:+ String ":" (rstrip (v0 +:+ post))) = true)
    as ->.
  { apply contains_spec. by exists (lstrip k0), (rstrip (v0 +:+ post)). }
  rewrite split_once_app by by apply free_of_lstrip.
  simpl. by rewrite strip_lstrip, strip_rstrip, strip_app_space_r.
Qed.

(** The header lines of a document, read one after the other. *)
Lemma parse_loop_fields fields closing rest metadata :
  Forall (fun kv => well_formed kv = true) fields ->
  is_delimiter closing = true ->
  parse_loop (List.map (fun l => l +:+ nl) (List.map field_line fields)
              ++ closing :: rest) metadata true =
  foldl (fun m kv => <[strip kv.1 := strip kv.2]> m) metadata fields.
Proof.
  intros Hwf Hclose. revert metadata.
  induction Hwf as [|[k0 v0] fields Hkv _ IH]; intros metadata.
  - by apply parse_loop_close.
  - unfold well_formed in Hkv. simpl in Hkv.
    apply andb_true_iff in Hkv as [[Hk _]%andb_true_iff _].
    cbn [List.map foldl app]. unfold field_line at 1. cbn [fst snd].
    rewrite !str_app_assoc, parse_loop_field by done. apply IH.
Qed.

Lemma lookup_foldl_insert (fields : list (string * string))
      (metadata : gmap string string) key :
  foldl (fun m kv => <[strip kv.1 := strip kv.2]> m) metadata fields !! key =
  match last_value key fields with
  | Some v => Some v
  | None => metadata !! key
  end.
Proof.
  unfold last_value.
  induction fields as [|kv fields IH] using rev_ind; [done|].
  rewrite foldl_app, filter_app. simpl.
  rewrite filter_cons, filter_nil.
  destruct (decide (strip kv.1 = key)) as [<-|Hne].
  - rewrite last_snoc. simpl. by rewrite lookup_insert_eq.
  - rewrite app_nil_r, lookup_insert_ne by done. apply IH.
Qed.

End parser_facts.

(** ** The header parser: claims C2, C6 and C7 *)

Section parser_claims.
Import PyStr LoadSkill Spec Examples.

Lemma free_of_append c a b :
  free_of c (a +:+ b) = free_of c a && free_of c b.
Proof.
  induction a as [|d a IH]; [done|].
  rewrite str_app_cons. simpl. by rewrite IH, andb_assoc.
Qed.

Lemma one_line_field kv : well_formed kv = true -> one_line (field_line kv) = true.
Proof.
  destruct kv as [k0 v0]. unfold well_formed, field_line, one_line. simpl.
  intros [[_ [Hk1 Hk2]%andb_true_iff]%andb_true_iff
          [Hv1 Hv2]%andb_true_iff]%andb_true_iff.
  rewrite !free_of_append, Hk1, Hk2, Hv1, Hv2. done.
Qed.

Lemma readlines_document fields body :
  Forall (fun kv => well_formed kv = true) fields ->
  readlines (document fields body) =
  ("---" +:+ nl)
    :: List.map (fun l => l +:+ nl) (List.map field_line fields)
    ++ ("---" +:+ nl) :: readlines body.
Proof.
  intros Hwf. unfold document. rewrite readlines_unlines.
  - rewrite map_cons, map_app. simpl. by rewrite <- app_assoc.
  - constructor; [done|]. apply Forall_app. split.
    + apply Forall_map. eapply Forall_impl; [exact Hwf|].
      intros kv. apply one_line_field.
    + by constructor.
Qed.

(** C6: in a document that opens with a delimiter line, continues with
    well-formed [key: value] lines and closes the header with a second
    delimiter line, the parsed mapping binds every key to the value of
    the last header line with that key, and binds nothing else. *)
Theorem last_occurrence_wins fields body key :
  Forall (fun kv => well_formed kv = true) fields ->
  parse_text (document fields body) !! key = last_value key fields.
Proof.
  intros Hwf. unfold parse_text.
  rewrite readlines_document, parse_loop_open by done.
  rewrite parse_loop_fields by done.
  rewrite lookup_foldl_insert, lookup_empty.
  by destruct (last_value key fields).
Qed.

Lemma last_occurrence_wins_witness :
  Forall (fun kv => well_formed kv = true)
         [("name", " first"); ("version", " 2.0"); (" name ", "  second  ")]
  /\ parse_text
       (document
          [("name", " first"); ("version", " 2.0"); (" name ", "  second  ")]
          "body: text") !! "name" = Some "second".
Proof.
  split.
  - repeat constructor.
  - exact (last_occurrence_wins
             [("name", " first"); ("version", " 2.0"); (" name ", "  second  ")]
             "body: text" "name" ltac:(repeat constructor)).
Defined.

(** C7, as the code has it: a line is taken for a delimiter exactly
    when it is the token [---] with whitespace only (its line
    terminator included) before and after it; such a line opens the
    header when none is open and ends the parse when one is, and any
    other line leaves the header as it is, closed or open. *)
Theorem delimiter_up_to_whitespace line :
  (is_delimiter line = true <->
   exists pre post, line = pre +:+ "---" +:+ post
                    /\ all_space pre = true /\ all_space post = true)
  /\ (forall rest metadata,
        parse_loop (line :: rest) metadata false =
        parse_loop rest metadata (is_delimiter line))
  /\ (forall rest metadata,
        is_delimiter line = true ->
        parse_loop (line :: rest) metadata true = metadata)
  /\ (forall rest metadata,
        is_delimiter line = false ->
        exists metadata',
          parse_loop (line :: rest) metadata true
          = parse_loop rest metadata' true).
Proof.
  split; [apply delimiter_iff|]. split; [|split].
  - intros rest metadata. rewrite parse_loop_cons. unfold is_delimiter.
    cbv zeta. by destruct (strip line =? "---").
  - intros rest metadata. apply parse_loop_close.
  - intros rest metadata Hno. rewrite parse_loop_cons.
    unfold is_delimiter in Hno. cbv zeta. rewrite Hno.
    destruct (true && contains ":" (strip line)); [|by eauto].
    destruct (split_once ":" (strip line)) as [[key value]|]; by eauto.
Qed.

Lemma delimiter_up_to_whitespace_witness :
  is_delimiter ("---" +:+ nl) = true
  /\ parse_loop [("---" +:+ nl); ("name: x" +:+ nl)] {["k" := "v"]} true
     = {["k" := "v"]}.
Proof.
  split; [reflexivity|].
  exact (proj1 (proj2 (proj2 (delimiter_up_to_whitespace ("---" +:+ nl))))
               [("name: x" +:+ nl)] {["k" := "v"]} eq_refl).
Defined.

(** C7, as the claim has it, fails: the line [  ---  ] is not the
    three-character token, and the parser takes it for the opening
    delimiter of a header. *)
Lemma padded_line_is_delimiter :
  "  ---  " <> "---"
  /\ is_delimiter ("  ---  " +:+ nl) = true
  /\ readlines padded_header
     = [("  ---  " +:+ nl); ("name: x" +:+ nl); ("---" +:+ nl)]
  /\ parse_text padded_header !! "name" = Some "x".
Proof. repeat split; [discriminate|vm_compute; reflexivity..]. Qed.

(** C2, as the code has it: the lines before the first delimiter line
    contribute nothing, and the header opens at that delimiter wherever
    it stands, so that the fields of a header that begins after a first
    line that is no delimiter are returned; a document without a
    delimiter line parses to the empty mapping. *)
Theorem header_opens_at_first_delimiter text pre rest :
  readlines text = pre ++ rest ->
  Forall (fun l => is_delimiter l = false) pre ->
  parse_text text = parse_loop rest ∅ false
  /\ (rest = [] -> parse_text text = ∅)
  /\ (forall opening tail,
        rest = opening :: tail -> is_delimiter opening = true ->
        parse_text text = parse_loop tail ∅ true)
  /\ (forall fields body key,
        Forall (fun kv => well_formed kv = true) fields ->
        rest = readlines (document fields body) ->
        parse_text text !! key = last_value key fields).
Proof.
  intros Hlines Hpre. unfold parse_text. rewrite Hlines.
  rewrite parse_loop_skip by done.
  split; [done|]. split; [by intros ->|]. split.
  - intros opening tail -> Hopen. by apply parse_loop_open.
  - intros fields body key Hwf ->.
    rewrite readlines_document, parse_loop_open by done.
    rewrite parse_loop_fields by done.
    rewrite lookup_foldl_insert, lookup_empty.
    by destruct (last_value key fields).
Qed.

Lemma header_opens_at_first_delimiter_witness :
  readlines late_header
  = [("# Title" +:+ nl)] ++ readlines (document [("name", " x")] "")
  /\ parse_text late_header !! "name" = Some "x".
Proof.
  split; [reflexivity|].
  refine (proj2 (proj2 (proj2 (header_opens_at_first_delimiter late_header
                                 [("# Title" +:+ nl)]
                                 (readlines (document [("name", " x")] ""))
                                 _ _)))
                [("name", " x")] "" "name" _ eq_refl).
  - reflexivity.
  - repeat constructor.
  - repeat constructor.
Defined.

(** C2, as the claim has it, fails: the first line of [late_header] is
    not a delimiter, and the parser still returns the field of the
    header that opens on the second line. *)
Lemma late_header_is_parsed :
  head (readlines late_header) = Some ("# Title" +:+ nl)
  /\ is_delimiter ("# Title" +:+ nl) = false
  /\ parse_text late_header !! "name" = Some "x"
  /\ parse_text late_header <> ∅.
Proof.
  repeat split; [vm_compute; reflexivity..|].
  intros H. apply (f_equal (fun m => m !! "name")) in H.
  vm_compute in H. discriminate.
Qed.

End parser_claims.

(** ** Facts about the scan *)

Section scan_facts.
Import PyStr Pathlib LoadSkill Spec.

Context (E : env).

Lemma scan_loop_step item rest skills :
  scan_loop E (item :: rest) skills =
  if candidate E item then
    metadata ← parse_frontmatter E (item ++ ["SKILL.md"]);
    scan_loop E rest
      (skills ++ [make_skill item (item ++ ["SKILL.md"]) metadata])
  else scan_loop E rest skills.
Proof.
  unfold candidate. simpl.
  destruct (is_dir E item && endswith "-skill" (name item)); [|done].
  by destruct (exists_ E (item ++ ["SKILL.md"])).
Qed.

Lemma parse_frontmatter_readable item :
  readable E item ->
  parse_frontmatter E (item ++ ["SKILL.md"])
  = Ok (parse_text (text_of E (item ++ ["SKILL.md"]))).
Proof.
  intros [text Htext]. unfold parse_frontmatter, text_of. by rewrite Htext.
Qed.

Lemma parse_frontmatter_unreadable item :
  ~ readable E item ->
  exists e, parse_frontmatter E (item ++ ["SKILL.md"]) = Raise e.
Proof.
  intros Hno. unfold parse_frontmatter.
  destruct (open_read E (item ++ ["SKILL.md"])) as [text|e] eqn:Hopen.
  - destruct Hno. by exists text.
  - by exists e.
Qed.

Lemma readable_dec item : readable E item \/ ~ readable E item.
Proof.
  unfold readable.
  destruct (open_read E (item ++ ["SKILL.md"])) as [text|e].
  - left. by exists text.
  - right. intros [text Htext]. discriminate.
Qed.

(** When every candidate can be read, the loop appends their entries
    in the order of the directory. *)
Lemma scan_loop_ok items skills :
  Forall (fun item => candidate E item = true -> readable E item) items ->
  scan_loop E items skills
  = Ok (skills ++ List.map (entry E) (List.filter (candidate E) items)).
Proof.
  intros Hall. revert skills.
  induction Hall as [|item items Hitem _ IH]; intros skills.
  - simpl. by rewrite app_nil_r.
  - rewrite scan_loop_step. simpl.
    destruct (candidate E item) eqn:Hc; [|apply IH].
    rewrite parse_frontmatter_readable by auto. simpl.
    rewrite IH, <- app_assoc. done.
Qed.

(** A candidate that cannot be read aborts the loop. *)
Lemma scan_loop_raise items skills :
  Exists (fun item => candidate E item = true /\ ~ readable E item) items ->
  exists e, scan_loop E items skills = Raise e.
Proof.
  intros Hex. revert skills.
  induction items as [|item items IH]; intros skills.
  - by apply Exists_nil in Hex.
  - rewrite scan_loop_step.
    destruct (candidate E item) eqn:Hc.
    + destruct (readable_dec item) as [Hr|Hr].
      * rewrite parse_frontmatter_readable by done. simpl.
        apply IH. apply Exists_cons in Hex as [[_ Hno]|Hex]; [done|done].
      * destruct (parse_frontmatter_unreadable item Hr) as [e ->].
        by exists e.
    + apply IH. apply Exists_cons in Hex as [[Hyes _]|Hex]; [congruence|done].
Qed.

End scan_facts.

Section sort_facts.
Import LoadSkill Spec.

Context (key : Skill.t -> string).

Lemma ltb_leb s1 s2 : String.ltb s1 s2 = true -> String.leb s1 s2 = true.
Proof. unfold String.ltb, String.leb. by destruct (String.compare s1 s2). Qed.

Lemma not_ltb_leb s1 s2 : String.ltb s1 s2 = false -> String.leb s2 s1 = true.
Proof.
  unfold String.ltb, String.leb. rewrite (String.compare_antisym s2 s1).
  by destruct (String.compare s1 s2).
Qed.

Lemma leb_trans s1 s2 s3 :
  String.leb s1 s2 = true -> String.leb s2 s3 = true -> String.leb s1 s3 = true.
Proof.
  intros H12 H23. apply Is_true_true.
  apply Is_true_true in H12, H23.
  exact (transitivity (R := String.le) H12 H23).
Qed.

Lemma insert_by_perm x l : insert_by key x l ≡ₚ x :: l.
Proof.
  induction l as [|y l IH]; [done|]. simpl.
  destruct (String.ltb (key y) (key x)); [|done].
  rewrite IH. apply Permutation_swap.
Qed.

Lemma sorted_perm l : sorted key l ≡ₚ l.
Proof.
  induction l as [|x l IH]; [done|]. unfold sorted. simpl.
  rewrite insert_by_perm. by constructor.
Qed.

Lemma insert_by_sorted x l :
  StronglySorted (key_le key) l -> StronglySorted (key_le key) (insert_by key x l).
Proof.
  induction 1 as [|y l Hl IH Hy]; simpl.
  - repeat constructor.
  - destruct (String.ltb (key y) (key x)) eqn:Hlt.
    + constructor; [done|].
      rewrite insert_by_perm. constructor; [|done].
      by apply ltb_leb.
    + apply not_ltb_leb in Hlt.
      constructor; [by constructor|].
      constructor; [done|].
      eapply Forall_impl; [exact Hy|].
      intros z Hz. unfold key_le in *. by eapply leb_trans.
Qed.

Lemma sorted_sorted l : StronglySorted (key_le key) (sorted key l).
Proof.
  induction l as [|x l IH]; [constructor|].
  by apply insert_by_sorted.
Qed.

End sort_facts.

(** ** The scan: claims C1 and C5 *)

Section scan_claims.
Import PyStr Pathlib LoadSkill Spec Examples.

Lemma get_all_skills_items E items :
  iterdir E (repo_root E) = Ok items ->
  get_all_skills E
  = skills ← scan_loop E items []; Ok (sorted Skill.name skills).
Proof. intros H. unfold get_all_skills. by rewrite H. Qed.

Lemma readable_all_or_not E items :
  Forall (fun item => candidate E item = true -> readable E item) items
  \/ Exists (fun item => candidate E item = true /\ ~ readable E item) items.
Proof.
  induction items as [|item items [IH|IH]].
  - left. constructor.
  - destruct (candidate E item) eqn:Hc.
    + destruct (readable_dec E item) as [Hr|Hr].
      * left. by constructor.
      * right. apply Exists_cons_hd. by rewrite Hc.
    + left. constructor; [by rewrite Hc|done].
  - right. by apply Exists_cons_tl.
Qed.

Lemma get_all_skills_raise E items :
  iterdir E (repo_root E) = Ok items ->
  Exists (fun item => candidate E item = true /\ ~ readable E item) items ->
  exists e, get_all_skills E = Raise e.
Proof.
  intros Hitems Hex. rewrite (get_all_skills_items E items Hitems).
  destruct (scan_loop_raise E items [] Hex) as [e ->]. by exists e.
Qed.

(** The entries of a scan that returns: one for each candidate. *)
Lemma scan_lists_candidates E items skills :
  iterdir E (repo_root E) = Ok items ->
  get_all_skills E = Ok skills ->
  skills ≡ₚ List.map (entry E) (List.filter (candidate E) items).
Proof.
  intros Hitems Hok.
  destruct (readable_all_or_not E items) as [Hall|Hex].
  - rewrite (get_all_skills_items E items Hitems) in Hok.
    rewrite (scan_loop_ok E items [] Hall) in Hok. simpl in Hok.
    injection Hok as <-. apply sorted_perm.
  - destruct (get_all_skills_raise E items Hitems Hex) as [e He]. congruence.
Qed.

(** C1, as the code has it: the scan fails as a whole when the
    [SKILL.md] of a candidate directory cannot be opened. It raises
    and returns no entry, those of the readable candidates included;
    nothing is ever excluded, for a scan that returns has opened the
    [SKILL.md] of every candidate and lists an entry for each. *)
Theorem scan_all_or_nothing E items :
  iterdir E (repo_root E) = Ok items ->
  (Exists (fun item => candidate E item = true /\ ~ readable E item) items ->
   (exists e, get_all_skills E = Raise e)
   /\ (forall skills, get_all_skills E <> Ok skills))
  /\ (forall skills,
        get_all_skills E = Ok skills ->
        Forall (fun item => candidate E item = true -> readable E item) items
        /\ skills ≡ₚ List.map (entry E) (List.filter (candidate E) items)).
Proof.
  intros Hitems. split.
  - intros Hex.
    destruct (get_all_skills_raise E items Hitems Hex) as [e He].
    split; [by exists e|]. intros skills. congruence.
  - intros skills Hok. split; [|by apply scan_lists_candidates].
    destruct (readable_all_or_not E items) as [Hall|Hex]; [done|].
    destruct (get_all_skills_raise E items Hitems Hex) as [e He].
    congruence.
Qed.

Lemma scan_all_or_nothing_witness :
  (forall skills, get_all_skills locked_env <> Ok skills)
  /\ [Skill.Make "a-skill" "/repo/a-skill/SKILL.md" "A" "No description" "1.0" "";
      Skill.Make "b-skill" "/repo/b-skill/SKILL.md" "B" "No description" "1.0" "";
      Skill.Make "c-skill" "/repo/c-skill/SKILL.md" "c-skill" "No description"
                 "1.0" ""]
     ≡ₚ List.map (entry unlocked_env)
          (List.filter (candidate unlocked_env)
             [["repo"; "a-skill"]; ["repo"; "b-skill"]; ["repo"; "c-skill"]]).
Proof.
  split.
  - refine (proj2 (proj1 (scan_all_or_nothing locked_env
                            [["repo"; "a-skill"]; ["repo"; "b-skill"];
                             ["repo"; "c-skill"]] _) _)).
    + reflexivity.
    + apply Exists_cons_tl, Exists_cons_hd. split; [reflexivity|].
      intros [text Htext]. discriminate.
  - refine (proj2 (proj2 (scan_all_or_nothing unlocked_env
                            [["repo"; "a-skill"]; ["repo"; "b-skill"];
                             ["repo"; "c-skill"]] _) _ _)).
    + reflexivity.
    + vm_compute. reflexivity.
Defined.

(** C1, as the claim has it, fails: in [locked_env] the [SKILL.md] of
    [b-skill] cannot be opened, and the scan raises [PermissionError]
    instead of returning the entries of [a-skill] and [c-skill]. *)
Lemma unreadable_file_aborts_scan :
  readable locked_env ["repo"; "a-skill"]
  /\ ~ readable locked_env ["repo"; "b-skill"]
  /\ get_all_skills locked_env = Raise PermissionError
  /\ (forall skills, get_all_skills locked_env <> Ok skills).
Proof.
  split; [by eexists|]. split; [intros [text Htext]; discriminate|].
  assert (get_all_skills locked_env = Raise PermissionError) as Hraise
    by (vm_compute; reflexivity).
  split; [done|]. intros skills. rewrite Hraise. discriminate.
Qed.

Lemma scan_sorted_by_name_aux E skills :
  get_all_skills E = Ok skills ->
  StronglySorted name_le skills
  /\ exists items found,
       iterdir E (repo_root E) = Ok items
       /\ scan_loop E items [] = Ok found /\ skills ≡ₚ found.
Proof.
  unfold get_all_skills.
  destruct (iterdir E (repo_root E)) as [items|e] eqn:Hitems; [|done]. simpl.
  destruct (scan_loop E items []) as [found|e] eqn:Hfound; [|done]. simpl.
  intros [= <-]. split; [apply sorted_sorted|].
  exists items, found. split; [done|]. split; [done|]. apply sorted_perm.
Qed.

Lemma capital_before_small c d s t :
  is_capital c = true -> is_small d = true ->
  String.ltb (String c s) (String d t) = true.
Proof.
  unfold is_capital, is_small, nat_of_ascii.
  intros [Hc1 Hc2]%andb_true_iff [Hd1 Hd2]%andb_true_iff.
  apply Nat.leb_le in Hc1, Hc2, Hd1, Hd2.
  unfold String.ltb. simpl. unfold Ascii.compare.
  assert (N_of_ascii c < N_of_ascii d)%N as Hlt by lia.
  apply N.compare_lt_iff in Hlt. by rewrite Hlt.
Qed.

(** C5: whatever the root holds, the entries the scan returns are the
    entries it found, in ascending order of [displayName] under the
    comparison of strings code point by code point; three entries named
    Zeta, alpha and Beta come out as Beta, Zeta, alpha, since a capital
    letter compares below every small letter. *)
Theorem scan_sorted_by_name :
  (forall E skills,
     get_all_skills E = Ok skills ->
     StronglySorted name_le skills
     /\ exists items found,
          iterdir E (repo_root E) = Ok items
          /\ scan_loop E items [] = Ok found /\ skills ≡ₚ found)
  /\ (forall z a b,
        Skill.name z = "Zeta" -> Skill.name a = "alpha" ->
        Skill.name b = "Beta" ->
        sorted Skill.name [z; a; b] = [b; z; a])
  /\ (forall c d s t,
        is_capital c = true -> is_small d = true ->
        String.ltb (String c s) (String d t) = true).
Proof.
  split; [|split].
  - apply scan_sorted_by_name_aux.
  - intros z a b Hz Ha Hb. unfold sorted. cbn [foldr insert_by].
    rewrite Hb, Ha. change (String.ltb "Beta" "alpha") with true.
    cbn [insert_by]. rewrite Hb, Hz, Ha.
    change (String.ltb "Beta" "Zeta") with true.
    change (String.ltb "alpha" "Zeta") with false. reflexivity.
  - apply capital_before_small.
Qed.

Lemma scan_sorted_by_name_witness :
  (List.map Skill.name <$> get_all_skills abc_env)
  = Ok ["Beta"; "Zeta"; "alpha"]
  /\ StronglySorted name_le
       [Skill.Make "beta-skill" "/repo/beta-skill/SKILL.md" "Beta"
                   "No description" "1.0" "";
        Skill.Make "zeta-skill" "/repo/zeta-skill/SKILL.md" "Zeta"
                   "No description" "1.0" "";
        Skill.Make "alpha-skill" "/repo/alpha-skill/SKILL.md" "alpha"
                   "No description" "1.0" ""].
Proof.
  split; [vm_compute; reflexivity|].
  refine (proj1 (proj1 scan_sorted_by_name abc_env _ _)).
  vm_compute. reflexivity.
Defined.

End scan_claims.

(** ** Search and the fuzzy step: claims C3, C8 and C9 *)

Section lookup_claims.
Import PyStr Pathlib LoadSkill Spec Examples.

Lemma contains_icontains needle hay :
  contains (lower needle) (lower hay) = true <-> icontains needle hay.
Proof. apply contains_spec. Qed.

#[global] Instance icontains_dec needle hay : Decision (icontains needle hay).
Proof.
  destruct (contains (lower needle) (lower hay)) eqn:H.
  - left. by apply contains_icontains.
  - right. intros Hc. apply contains_icontains in Hc. congruence.
Defined.

Lemma keyword_matches_spec keyword skill :
  keyword_matches (lower keyword) skill = true <-> matches_keyword keyword skill.
Proof.
  unfold keyword_matches, matches_keyword.
  rewrite !orb_true_iff, !contains_icontains. tauto.
Qed.










Lemma contains_empty hay : contains "" hay = true.
Proof. by destruct hay. Qed.

(** C9: when the root itself holds no [SKILL.md] and no container
    named [-skill] matches, resolving the empty string returns the
    document path of the first entry of a non-empty catalog, in its
    sorted order, and not the not-found signal: the empty string is a
    substring of every [displayName]. *)
Theorem empty_name_resolves_to_first E first rest :
  exists_ E (repo_root E ++ ["SKILL.md"]) = false ->
  probe E (repo_root E ++ ["-skill"]) = None ->
  get_all_skills E = Ok (first :: rest) ->
  find_skill_path E "" = Ok (Some (parse (Skill.path first)))
  /\ (forall skill, icontains "" (Skill.name skill)).
Proof.
  intros Hroot Hsuffix Hscan. split.
  - unfold find_skill_path.
    change (joinpath (repo_root E) "") with (repo_root E ++ []).
    change (joinpath (repo_root E) ("" +:+ "-skill"))
      with (repo_root E ++ ["-skill"]).
    change (endswith "-skill" "") with false.
    rewrite app_nil_r. unfold probe at 1.
    rewrite Hroot, andb_false_r. cbn [negb].
    rewrite Hsuffix, Hscan. simpl. by rewrite contains_empty.
  - intros skill. apply contains_icontains. apply contains_empty.
Qed.

Lemma empty_name_resolves_to_first_witness :
  find_skill_path abc_env "" = Ok (Some ["repo"; "beta-skill"; "SKILL.md"]).
Proof.
  refine (proj1 (empty_name_resolves_to_first abc_env
            (Skill.Make "beta-skill" "/repo/beta-skill/SKILL.md" "Beta"
                        "No description" "1.0" "")
            [Skill.Make "zeta-skill" "/repo/zeta-skill/SKILL.md" "Zeta"
                        "No description" "1.0" "";
             Skill.Make "alpha-skill" "/repo/alpha-skill/SKILL.md" "alpha"
                        "No description" "1.0" ""]
            _ _ _)); vm_compute; reflexivity.
Defined.

End lookup_claims.

(** ** Facts about paths *)

Section path_facts.
Import PyStr Pathlib LoadSkill Spec.

Lemma walk_prefix up cur p q n :
  walk up cur (p ++ q) = Some n -> is_Some (walk up cur p).
Proof.
  revert up cur. induction p as [|seg p IH]; intros up cur; [by eauto|].
  simpl. destruct cur as [| |ch]; [done..|].
  destruct (seg =? "..").
  - destruct up; apply IH.
  - destruct (lookup_child seg ch); [apply IH|done].
Qed.

Lemma exists_prefix E p q : exists_ E (p ++ q) = true -> exists_ E p = true.
Proof.
  unfold exists_, stat.
  destruct (walk [] (Dir (slash E)) (p ++ q)) as [n|] eqn:Hw; [|done].
  intros _. by destruct (walk_prefix _ _ _ _ _ Hw) as [m ->].
Qed.

Lemma probe_found E skill_dir :
  exists_ E (skill_dir ++ ["SKILL.md"]) = true ->
  probe E skill_dir = Some (skill_dir ++ ["SKILL.md"]).
Proof.
  intros H. unfold probe. by rewrite (exists_prefix _ _ _ H), H.
Qed.

Lemma split_free sep s : free_of sep s = true -> split sep s = [s].
Proof.
  induction s as [|c s IH]; [done|]. simpl.
  intros [Hc Hs]%andb_true_iff. apply negb_true_iff in Hc.
  by rewrite Hc, IH.
Qed.

Lemma startswith_free sep s :
  free_of sep s = true -> startswith (String sep "") s = false.
Proof.
  destruct s as [|c s]; [done|]. simpl.
  intros [Hc _]%andb_true_iff. apply negb_true_iff in Hc.
  by rewrite Ascii.eqb_sym, Hc.
Qed.

Lemma joinpath_plain p s :
  free_of "/" s = true -> s <> "" -> s <> "." -> joinpath p s = p ++ [s].
Proof.
  intros Hfree Hne Hdot. unfold joinpath, parse.
  rewrite (startswith_free "/" s Hfree), split_free by done. simpl.
  apply String.eqb_neq in Hne, Hdot. by rewrite Hne, Hdot.
Qed.

Lemma suffixed_plain stem :
  free_of "/" stem = true ->
  free_of "/" (stem +:+ "-skill") = true
  /\ stem +:+ "-skill" <> "" /\ stem +:+ "-skill" <> ".".
Proof.
  intros Hfree. split; [by rewrite free_of_append, Hfree|].
  assert (endswith "-skill" (stem +:+ "-skill") = true) as Hends
    by (apply endswith_spec; by exists stem).
  split; intros Heq; by rewrite Heq in Hends.
Qed.

Lemma render_snoc p seg : render (p ++ [seg]) = render p +:+ "/" +:+ seg.
Proof.
  induction p as [|x p IH]; simpl.
  - by rewrite str_app_nil_r.
  - unfold render in *. simpl. by rewrite IH, !str_app_assoc.
Qed.

Lemma str_snoc p seg : str (p ++ [seg]) = render p +:+ "/" +:+ seg.
Proof. rewrite <- render_snoc. by destruct p. Qed.

(** A text is cut at its last [/] in one way only. *)
Lemma app_slash_inj u a v b :
  free_of "/" a = true -> free_of "/" b = true ->
  u +:+ String "/" a = v +:+ String "/" b -> u = v /\ a = b.
Proof.
  intros Ha Hb. revert v.
  induction u as [|c u IH]; intros [|d v]; rewrite ?str_app_nil_l, ?str_app_cons.
  - by intros [= ->].
  - intros [= <- ->]. by rewrite free_of_app in Ha.
  - intros [= -> <-]. by rewrite free_of_app in Hb.
  - intros [= -> H]. by destruct (IH v H) as [-> ->].
Qed.

Lemma lookup_child_wf seg ch n :
  wf_node (Dir ch) = true -> lookup_child seg ch = Some n ->
  free_of "/" seg = true /\ wf_node n = true.
Proof.
  simpl. induction ch as [|[m x] ch IH]; [done|]. simpl.
  intros [[Hm Hx]%andb_true_iff Hch]%andb_true_iff.
  destruct (String.eqb_spec m seg) as [->|_]; [|by apply IH].
  by intros [= <-].
Qed.

(** Resolution in a well-formed tree ends in a well-formed object, and
    the last segment it followed holds no [/]. *)
Lemma walk_wf up cur p n :
  Forall (fun d => wf_node d = true) up -> wf_node cur = true ->
  walk up cur p = Some n ->
  wf_node n = true /\ free_of "/" (name p) = true.
Proof.
  revert up cur. induction p as [|seg p IH]; intros up cur Hup Hcur.
  - by intros [= <-].
  - assert (free_of "/" seg = true ->
            free_of "/" (name p) = true ->
            free_of "/" (name (seg :: p)) = true) as Hname.
    { unfold name. by destruct p. }
    simpl. destruct cur as [| |ch]; [done..|].
    destruct (String.eqb_spec seg "..") as [->|_].
    + destruct Hup as [|parent up Hparent Hup]; intros Hw.
      * destruct (IH [] (Dir ch)) as [? ?]; [constructor|done|done|auto].
      * destruct (IH up parent) as [? ?]; [done|done|done|auto].
    + destruct (lookup_child seg ch) as [m|] eqn:Hm; [|done]. intros Hw.
      destruct (lookup_child_wf _ _ _ Hcur Hm) as [Hseg Hwf].
      destruct (IH (Dir ch :: up) m) as [? ?];
        [by constructor|done|done|auto].
Qed.

Lemma exists_name_free E p :
  wf_fs E = true -> exists_ E p = true -> free_of "/" (name p) = true.
Proof.
  unfold wf_fs, exists_, stat. intros Hwf.
  destruct (walk [] (Dir (slash E)) p) as [n|] eqn:Hw; [|done]. intros _.
  by destruct (walk_wf _ _ _ _ ltac:(constructor) Hwf Hw).
Qed.

Lemma name_snoc p seg : name (p ++ [seg]) = seg.
Proof. apply last_last. Qed.

Lemma path_snoc (p : Path) : p = [] \/ exists q, p = q ++ [name p].
Proof.
  destruct p as [|x p] using rev_ind; [by left|].
  right. exists p. by rewrite name_snoc.
Qed.

End path_facts.

(** ** The probes of the resolver: claims C4 and C10 *)

Section probe_claims.
Import PyStr Pathlib LoadSkill Spec Examples.

(** C4, as the code has it: with a directory [stem-skill] that holds a
    [SKILL.md], resolving [stem-skill] returns that document, and so
    does resolving [stem] when the exact probe for [stem] finds nothing
    (a path [stem] with a [SKILL.md] of its own comes first); for an
    input that ends in [-skill] the probe with the suffix appended is
    skipped, and a failed exact probe leads straight to the fuzzy step. *)
Theorem suffix_qualified_resolution E stem :
  free_of "/" stem = true ->
  exists_ E (repo_root E ++ [stem +:+ "-skill"; "SKILL.md"]) = true ->
  find_skill_path E (stem +:+ "-skill")
  = Ok (Some (repo_root E ++ [stem +:+ "-skill"; "SKILL.md"]))
  /\ (endswith "-skill" stem = false ->
      probe E (joinpath (repo_root E) stem) = None ->
      find_skill_path E stem
      = Ok (Some (repo_root E ++ [stem +:+ "-skill"; "SKILL.md"])))
  /\ (forall skill_name,
        endswith "-skill" skill_name = true ->
        probe E (joinpath (repo_root E) skill_name) = None ->
        find_skill_path E skill_name
        = skills ← get_all_skills E; Ok (fuzzy skill_name skills)).
Proof.
  intros Hfree Hdoc.
  destruct (suffixed_plain stem Hfree) as (Hfree' & Hne & Hdot).
  assert (probe E (joinpath (repo_root E) (stem +:+ "-skill"))
          = Some (repo_root E ++ [stem +:+ "-skill"; "SKILL.md"])) as Hprobe.
  { rewrite joinpath_plain by done. rewrite probe_found.
    - by rewrite <- app_assoc.
    - by rewrite <- app_assoc. }
  split; [|split].
  - unfold find_skill_path. by rewrite Hprobe.
  - intros Hends Hexact. unfold find_skill_path.
    by rewrite Hexact, Hends, Hprobe.
  - intros skill_name Hends Hexact. unfold find_skill_path.
    by rewrite Hexact, Hends.
Qed.

Lemma suffix_qualified_resolution_witness :
  find_skill_path foo_env "foo-skill"
  = Ok (Some ["repo"; "foo-skill"; "SKILL.md"])
  /\ find_skill_path foo_env "foo"
     = Ok (Some ["repo"; "foo-skill"; "SKILL.md"]).
Proof.
  destruct (suffix_qualified_resolution foo_env "foo" eq_refl eq_refl)
    as (Hfull & Hstem & _).
  split; [exact Hfull|]. apply Hstem; reflexivity.
Defined.

(** C4, as the claim has it, fails: in [shadow_env] the root holds
    [foo-skill] with its [SKILL.md], and resolving [foo] returns the
    [SKILL.md] of the directory [foo]. *)
Lemma exact_match_shadows_suffix :
  is_dir shadow_env ["repo"; "foo-skill"] = true
  /\ exists_ shadow_env ["repo"; "foo-skill"; "SKILL.md"] = true
  /\ find_skill_path shadow_env "foo-skill"
     = Ok (Some ["repo"; "foo-skill"; "SKILL.md"])
  /\ find_skill_path shadow_env "foo" = Ok (Some ["repo"; "foo"; "SKILL.md"])
  /\ find_skill_path shadow_env "foo"
     <> Ok (Some ["repo"; "foo-skill"; "SKILL.md"]).
Proof. repeat split; [vm_compute; reflexivity..|discriminate]. Qed.

(** Every entry of a scan stands for a child of the root whose name
    ends in [-skill], and records the path of the [SKILL.md] in it. *)
Lemma scan_entry E skills skill :
  get_all_skills E = Ok skills -> skill ∈ skills ->
  exists child,
    exists_ E (repo_root E ++ [child]) = true
    /\ endswith "-skill" child = true
    /\ Skill.directory skill = child
    /\ Skill.path skill = str ((repo_root E ++ [child]) ++ ["SKILL.md"]).
Proof.
  intros Hscan Hin.
  destruct (scan_sorted_by_name_aux E skills Hscan)
    as (_ & items & found & Hitems & _).
  rewrite (scan_lists_candidates E items skills Hitems Hscan) in Hin.
  apply list_elem_of_In, in_map_iff in Hin as (item & <- & Hitem).
  apply filter_In in Hitem as [Hitem Hcand].
  unfold iterdir in Hitems.
  destruct (stat E (repo_root E)) as [[| |ch]|] eqn:Hroot; try done.
  injection Hitems as <-.
  apply in_map_iff in Hitem as ([child n] & <- & _). simpl in *.
  unfold candidate in Hcand. rewrite name_snoc in Hcand.
  apply andb_true_iff in Hcand as [[Hdir Hends]%andb_true_iff Hdoc].
  exists child. split; [by eapply exists_prefix|].
  split; [done|]. split; [apply name_snoc|done].
Qed.

(** C10, as the code has it: the exact probe succeeds for every input
    that names an existing path holding a [SKILL.md], whatever the name
    of that path; when that name does not end in [-skill], the path
    returned is none of the paths a scan lists (file names hold no
    [/]). *)
Theorem exact_match_outside_catalog E skill_name :
  exists_ E (joinpath (repo_root E) skill_name ++ ["SKILL.md"]) = true ->
  find_skill_path E skill_name
  = Ok (Some (joinpath (repo_root E) skill_name ++ ["SKILL.md"]))
  /\ exists_ E (joinpath (repo_root E) skill_name) = true
  /\ (wf_fs E = true ->
      endswith "-skill" (name (joinpath (repo_root E) skill_name)) = false ->
      forall skills skill,
        get_all_skills E = Ok skills -> skill ∈ skills ->
        Skill.path skill
        <> str (joinpath (repo_root E) skill_name ++ ["SKILL.md"])).
Proof.
  set (skill_dir := joinpath (repo_root E) skill_name).
  intros Hdoc. split; [|split].
  - unfold find_skill_path. fold skill_dir. by rewrite probe_found.
  - by eapply exists_prefix.
  - intros Hwf Hends skills skill Hscan Hin Heq.
    destruct (scan_entry E skills skill Hscan Hin)
      as (child & Hchild & Hsuffix & _ & Hpath).
    rewrite Hpath, !str_snoc in Heq.
    apply app_slash_inj in Heq as [Heq _]; [|done..].
    apply (exists_name_free E _ Hwf) in Hchild. rewrite name_snoc in Hchild.
    pose proof (exists_name_free E _ Hwf (exists_prefix _ _ _ Hdoc)) as Hname.
    destruct (path_snoc skill_dir) as [Hnil|[q Hq]].
    + rewrite Hnil, render_snoc in Heq. by destruct (render (repo_root E)).
    + rewrite Hq, !render_snoc in Heq.
      apply app_slash_inj in Heq as [_ Heq]; [|done..]. congruence.
Qed.

Lemma exact_match_outside_catalog_witness :
  find_skill_path shadow_env "foo" = Ok (Some ["repo"; "foo"; "SKILL.md"])
  /\ Forall (fun skill => Skill.path skill <> "/repo/foo/SKILL.md")
            [Skill.Make "foo-skill" "/repo/foo-skill/SKILL.md" "Foo"
                        "No description" "1.0" ""].
Proof.
  destruct (exact_match_outside_catalog shadow_env "foo" eq_refl)
    as (Hfound & _ & Hout).
  split; [exact Hfound|]. constructor; [|constructor].
  apply (Hout eq_refl eq_refl
              [Skill.Make "foo-skill" "/repo/foo-skill/SKILL.md" "Foo"
                          "No description" "1.0" ""]).
  - vm_compute. reflexivity.
  - apply list_elem_of_here.
Defined.

(** C10, as the claim has it, fails: in [dotdot_env] the input
    [foo-skill/sub/..] names an existing path whose name, [..], does
    not end in [-skill]; the exact probe returns the [SKILL.md] below
    it, and that is the document of [foo-skill], which the scan lists:
    both paths lead to the same place. *)
Lemma dotdot_reaches_listed_document :
  find_skill_path Inputs.dotdot_env "foo-skill/sub/.."
  = Ok (Some ["repo"; "foo-skill"; "sub"; ".."; "SKILL.md"])
  /\ name (joinpath (repo_root Inputs.dotdot_env) "foo-skill/sub/..") = ".."
  /\ endswith "-skill" ".." = false
  /\ get_all_skills Inputs.dotdot_env
     = Ok [Skill.Make "foo-skill" "/repo/foo-skill/SKILL.md" "Foo"
                      "No description" "1.0" ""]
  /\ Props.realpath Inputs.dotdot_env (parse "/repo/foo-skill/SKILL.md")
     = Some ["repo"; "foo-skill"; "SKILL.md"]
  /\ Props.realpath Inputs.dotdot_env
       ["repo"; "foo-skill"; "sub"; ".."; "SKILL.md"]
     = Some ["repo"; "foo-skill"; "SKILL.md"]
  /\ stat Inputs.dotdot_env ["repo"; "foo-skill"; "sub"; ".."; "SKILL.md"]
     = stat Inputs.dotdot_env ["repo"; "foo-skill"; "SKILL.md"].
Proof. repeat split; vm_compute; reflexivity. Qed.

End probe_claims.

(** ** Further properties of the header parser *)

Section parser_props.
Import PyStr LoadSkill Spec Props.

Lemma strip_idem s : strip (strip s) = strip s.
Proof. unfold strip at 2. by rewrite strip_rstrip, strip_lstrip. Qed.

Lemma free_of_rstrip c s : free_of c s = true -> free_of c (rstrip s) = true.
Proof.
  induction s as [|d s IH]; [done|]. simpl.
  intros [Hd Hs]%andb_true_iff.
  destruct (isspace d && (rstrip s =? "")); [done|].
  simpl. by rewrite Hd, IH.
Qed.

Lemma free_of_strip c s : free_of c s = true -> free_of c (strip s) = true.
Proof. intros H. unfold strip. by apply free_of_rstrip, free_of_lstrip. Qed.

Lemma split_once_free c s k v :
  split_once c s = Some (k, v) -> free_of c k = true.
Proof.
  revert k. induction s as [|d s IH]; intros k; [done|]. simpl.
  destruct (Ascii.eqb d c) eqn:Hd.
  - by intros [= <- _].
  - destruct (split_once c s) as [[k' v']|]; [|done].
    intros [= <- <-]. simpl. by rewrite Hd, (IH k').
Qed.

Lemma parse_loop_clean lines metadata in_frontmatter :
  clean metadata -> clean (parse_loop lines metadata in_frontmatter).
Proof.
  revert metadata in_frontmatter.
  induction lines as [|line lines IH]; intros metadata b Hclean; [done|].
  rewrite parse_loop_cons. cbv zeta.
  destruct (strip line =? "---").
  { destruct (negb b); [by apply IH|done]. }
  destruct (b && contains ":" (strip line)); [|by apply IH].
  destruct (split_once ":" (strip line)) as [[k v]|] eqn:Hsplit; [|by apply IH].
  apply IH. intros key value.
  destruct (decide (strip k = key)) as [<-|Hne].
  - rewrite lookup_insert_eq. intros [= <-].
    rewrite !strip_idem. repeat split.
    apply free_of_strip. by eapply split_once_free.
  - rewrite lookup_insert_ne by done. apply Hclean.
Qed.

(** X1: every field name the header parser returns is free of
    surrounding whitespace and of colons, and every value is free of
    surrounding whitespace, whatever the document. *)
Theorem parsed_fields_are_stripped text key value :
  parse_text text !! key = Some value ->
  strip key = key /\ strip value = value /\ free_of ":" key = true.
Proof.
  apply (parse_loop_clean (readlines text) ∅ false).
  intros k v. by rewrite lookup_empty.
Qed.

Lemma parsed_fields_are_stripped_witness :
  parse_text Examples.padded_header !! "name" = Some "x"
  /\ strip "name" = "name" /\ strip "x" = "x" /\ free_of ":" "name" = true.
Proof.
  split; [vm_compute; reflexivity|].
  apply (parsed_fields_are_stripped Examples.padded_header "name" "x").
  vm_compute. reflexivity.
Defined.

Lemma parse_loop_until_close mid closing rest metadata :
  Forall (fun l => is_delimiter l = false) mid ->
  is_delimiter closing = true ->
  parse_loop (mid ++ closing :: rest) metadata true
  = parse_loop mid metadata true.
Proof.
  intros Hmid Hclose. revert metadata.
  induction Hmid as [|line mid Hline _ IH]; intros metadata.
  - by apply parse_loop_close.
  - cbn [app]. rewrite !parse_loop_cons. cbv zeta.
    unfold is_delimiter in Hline. rewrite Hline.
    destruct (true && contains ":" (strip line)); [|apply IH].
    destruct (split_once ":" (strip line)) as [[k v]|]; apply IH.
Qed.

(** X2: the mapping depends on the lines between the first delimiter
    and the second only. A header that is never closed is read to the
    end of the input, and gives what it would give if it were closed
    there; the closing delimiter and all text after it are not looked
    at. *)
Theorem header_ends_at_second_delimiter
        text text' pre opening mid closing rest :
  Forall (fun l => is_delimiter l = false) pre ->
  is_delimiter opening = true ->
  Forall (fun l => is_delimiter l = false) mid ->
  is_delimiter closing = true ->
  readlines text = pre ++ opening :: mid ->
  readlines text' = pre ++ opening :: mid ++ closing :: rest ->
  parse_text text' = parse_text text.
Proof.
  intros Hpre Hopen Hmid Hclose Htext Htext'. unfold parse_text.
  rewrite Htext, Htext', !parse_loop_skip by done.
  rewrite !parse_loop_open by done. by apply parse_loop_until_close.
Qed.

Lemma header_ends_at_second_delimiter_witness :
  parse_text (unlines ["# T"; "---"; "name: x"; "---"; "name: y"; "---"])
  = parse_text (unlines ["# T"; "---"; "name: x"]).
Proof.
  apply (header_ends_at_second_delimiter
           (unlines ["# T"; "---"; "name: x"])
           (unlines ["# T"; "---"; "name: x"; "---"; "name: y"; "---"])
           ["# T" +:+ nl] ("---" +:+ nl) ["name: x" +:+ nl] ("---" +:+ nl)
           ["name: y" +:+ nl; "---" +:+ nl]);
    first [reflexivity | repeat constructor].
Defined.

(** X3: lines that are neither delimiters nor hold a colon (blank
    lines, prose, list items) can be deleted from a document, anywhere,
    without changing the mapping. *)
Theorem irrelevant_lines_are_ignored text text' :
  readlines text' = List.filter relevant (readlines text) ->
  parse_text text' = parse_text text.
Proof.
  unfold parse_text. intros ->.
  generalize (∅ : gmap string string) false.
  induction (readlines text) as [|line lines IH]; intros metadata b; [done|].
  simpl List.filter. unfold relevant at 1, is_delimiter.
  rewrite (parse_loop_cons line lines). cbv zeta.
  destruct (strip line =? "---") eqn:Hd.
  - simpl orb. cbv iota. rewrite parse_loop_cons. cbv zeta. rewrite Hd.
    destruct (negb b); [apply IH|done].
  - destruct (contains ":" (strip line)) eqn:Hc.
    + simpl orb. cbv iota. rewrite parse_loop_cons. cbv zeta. rewrite Hd, Hc.
      destruct (b && true); [|apply IH].
      destruct (split_once ":" (strip line)) as [[k v]|]; apply IH.
    + simpl orb. cbv iota. rewrite andb_false_r. apply IH.
Qed.

Lemma irrelevant_lines_are_ignored_witness :
  parse_text (unlines ["---"; "name: x"; "---"])
  = parse_text (unlines ["intro"; "---"; ""; "name: x"; "- item"; "---"]).
Proof.
  apply (irrelevant_lines_are_ignored
           (unlines ["intro"; "---"; ""; "name: x"; "- item"; "---"])
           (unlines ["---"; "name: x"; "---"])).
  vm_compute. reflexivity.
Defined.

Lemma readlines_line_crlf l t :
  one_line l = true ->
  readlines (l +:+ CRLF +:+ t) = (l +:+ nl) :: readlines t.
Proof.
  unfold one_line. induction l as [|c l IH]; [done|].
  rewrite !str_app_cons. simpl.
  intros [[Hlf Hl]%andb_true_iff [Hcr Hr]%andb_true_iff]%andb_true_iff.
  apply negb_true_iff in Hlf, Hcr. rewrite Hlf, Hcr.
  rewrite IH; [done|]. by rewrite Hl, Hr.
Qed.

Lemma readlines_cr t :
  startswith nl t = false -> readlines (String CR t) = nl :: readlines t.
Proof.
  destruct t as [|d t]; [done|].
  change (startswith nl (String d t)) with (Ascii.eqb LF d && true).
  change (readlines (String CR (String d t)))
    with (if Ascii.eqb d LF then nl :: readlines t
          else nl :: readlines (String d t)).
  rewrite andb_true_r, Ascii.eqb_sym. by intros ->.
Qed.

Lemma readlines_line_cr l t :
  one_line l = true -> startswith nl t = false ->
  readlines (l +:+ String CR t) = (l +:+ nl) :: readlines t.
Proof.
  unfold one_line. intros Hl Ht. induction l as [|c l IH].
  - rewrite !str_app_nil_l. by apply readlines_cr.
  - simpl in Hl.
    apply andb_true_iff in Hl as
        [[Hlf Hl]%andb_true_iff [Hcr Hr]%andb_true_iff].
    apply negb_true_iff in Hlf, Hcr.
    rewrite !str_app_cons. cbn [readlines]. rewrite Hlf, Hcr.
    rewrite IH; [done|]. by rewrite Hl, Hr.
Qed.

Lemma join_cr_start ls :
  Forall (fun l => one_line l = true) ls ->
  startswith nl (join_lines (String CR "") ls) = false.
Proof.
  destruct 1 as [|l ls Hl _]; [done|]. cbn [join_lines foldr].
  destruct l as [|c l]; [done|].
  rewrite str_app_cons.
  change (startswith nl (String c ?r)) with (Ascii.eqb LF c && true).
  unfold one_line in Hl. cbn [free_of] in Hl.
  apply andb_true_iff in Hl as [[Hlf _]%andb_true_iff _].
  apply negb_true_iff in Hlf. by rewrite Ascii.eqb_sym, Hlf.
Qed.

Lemma readlines_join ls :
  Forall (fun l => one_line l = true) ls ->
  readlines (join_lines CRLF ls) = List.map (fun l => l +:+ nl) ls
  /\ readlines (join_lines (String CR "") ls)
     = List.map (fun l => l +:+ nl) ls
  /\ readlines (join_lines nl ls) = List.map (fun l => l +:+ nl) ls.
Proof.
  intros Hls. split; [|split].
  - induction Hls as [|l ls Hl _ IH]; [done|].
    simpl. by rewrite readlines_line_crlf, IH.
  - induction Hls as [|l ls Hl Hls IH]; [done|].
    cbn [join_lines foldr List.map]. rewrite str_app_cons, str_app_nil_l.
    rewrite readlines_line_cr; [|done|by apply join_cr_start].
    by rewrite <- IH.
  - induction Hls as [|l ls Hl _ IH]; [done|].
    simpl. by rewrite readlines_line, IH.
Qed.

(** X4: the line ending does not matter. A document written with
    [\r\n] or with [\r] at the end of its lines parses to the mapping
    of the same lines ended by [\n]. *)
Theorem line_endings_do_not_matter ls :
  Forall (fun l => one_line l = true) ls ->
  parse_text (join_lines CRLF ls) = parse_text (join_lines nl ls)
  /\ parse_text (join_lines (String CR "") ls) = parse_text (join_lines nl ls).
Proof.
  intros Hls. destruct (readlines_join ls Hls) as (H1 & H2 & H3).
  unfold parse_text. by rewrite H1, H2, H3.
Qed.

Lemma line_endings_do_not_matter_witness :
  parse_text (join_lines CRLF ["---"; "name: x"; "---"]) !! "name" = Some "x".
Proof.
  rewrite (proj1 (line_endings_do_not_matter ["---"; "name: x"; "---"]
                    ltac:(repeat constructor))).
  vm_compute. reflexivity.
Defined.

End parser_props.

(** ** Further properties of the scan and of its order *)

Section scan_props.
Import PyStr Pathlib LoadSkill Spec Props.

Lemma ltb_irrefl s : String.ltb s s = false.
Proof.
  unfold String.ltb. pose proof (String.compare_antisym s s) as H.
  by destruct (String.compare s s).
Qed.

Lemma insert_by_filter key x l k :
  filter (fun s => key s = k) (insert_by key x l)
  = filter (fun s => key s = k) (x :: l).
Proof.
  induction l as [|y l IH]; [done|]. simpl.
  destruct (String.ltb (key y) (key x)) eqn:Hlt; [|done].
  rewrite (filter_cons _ y), IH, !filter_cons.
  destruct (decide (key y = k)) as [Hy|Hy]; [|done].
  destruct (decide (key x = k)) as [Hx|Hx]; [|done].
  rewrite Hx, Hy, ltb_irrefl in Hlt. discriminate.
Qed.

(** X5: the sort of the catalog is stable: entries that share a
    display name stay in the order in which the directory listed them. *)
Theorem sorted_is_stable key l k :
  filter (fun s => key s = k) (sorted key l)
  = filter (fun s => key s = k) l.
Proof.
  induction l as [|x l IH]; [done|].
  unfold sorted. cbn [foldr]. rewrite insert_by_filter.
  fold (sorted key l). by rewrite !filter_cons, IH.
Qed.

Lemma key_inj_on (key : Skill.t -> string) (l : list Skill.t) x y :
  NoDup (List.map key l) -> x ∈ l -> y ∈ l -> key x = key y -> x = y.
Proof.
  induction l as [|z l IH]; simpl; [by intros _ ?%not_elem_of_nil|].
  intros [Hz Hl]%NoDup_cons Hx Hy Hkey.
  apply elem_of_cons in Hx as [->|Hx]; apply elem_of_cons in Hy as [->|Hy].
  - done.
  - destruct Hz. rewrite Hkey. apply list_elem_of_In, in_map.
    by apply list_elem_of_In.
  - destruct Hz. rewrite <- Hkey. apply list_elem_of_In, in_map.
    by apply list_elem_of_In.
  - by apply IH.
Qed.

(** X6: when the display names are distinct, the sorted catalog does
    not depend on the order in which the entries were found, that is,
    on the order in which the directory is listed. *)
Theorem sorted_order_independent key l1 l2 :
  l1 ≡ₚ l2 -> NoDup (List.map key l1) -> sorted key l1 = sorted key l2.
Proof.
  intros Hperm Hnodup.
  apply (StronglySorted_unique_strong (key_le key)).
  - intros x1 x2 Hx1 Hx2 H12 H21.
    apply (key_inj_on key l1); [done| | |by apply String.leb_antisym].
    + by rewrite <- (sorted_perm key l1).
    + by rewrite Hperm, <- (sorted_perm key l2).
  - apply sorted_sorted.
  - apply sorted_sorted.
  - by rewrite !sorted_perm.
Qed.

Lemma sorted_order_independent_witness :
  sorted Skill.name
    [Skill.Make "b-skill" "/b" "B" "" "" ""; Skill.Make "a-skill" "/a" "A" "" "" ""]
  = sorted Skill.name
      [Skill.Make "a-skill" "/a" "A" "" "" ""; Skill.Make "b-skill" "/b" "B" "" "" ""].
Proof.
  apply sorted_order_independent.
  - apply Permutation_swap.
  - repeat constructor; [|by intros ?%not_elem_of_nil].
    intros [=]%list_elem_of_singleton.
Defined.

Lemma scan_ok_readable E items skills :
  iterdir E (repo_root E) = Ok items ->
  get_all_skills E = Ok skills ->
  Forall (fun item => candidate E item = true -> readable E item) items.
Proof.
  intros Hitems Hok.
  destruct (readable_all_or_not E items) as [Hall|Hex]; [done|].
  destruct (get_all_skills_raise E items Hitems Hex) as [e He]. congruence.
Qed.

Lemma scan_entry_shape E skills skill :
  get_all_skills E = Ok skills -> skill ∈ skills ->
  exists child text,
    is_dir E (repo_root E ++ [child]) = true
    /\ endswith "-skill" child = true
    /\ open_read E (repo_root E ++ [child; "SKILL.md"]) = Ok text
    /\ skill =
       {| Skill.directory := child;
          Skill.path := str (repo_root E ++ [child; "SKILL.md"]);
          Skill.name := default child (parse_text text !! "name");
          Skill.description :=
            default "No description" (parse_text text !! "description");
          Skill.version := default "1.0" (parse_text text !! "version");
          Skill.activation := default "" (parse_text text !! "activation") |}.
Proof.
  intros Hscan Hin.
  destruct (scan_sorted_by_name_aux E skills Hscan)
    as (_ & items & found & Hitems & _).
  pose proof (scan_ok_readable E items skills Hitems Hscan) as Hall.
  rewrite (scan_lists_candidates E items skills Hitems Hscan) in Hin.
  apply list_elem_of_In, in_map_iff in Hin as (item & <- & Hitem).
  apply filter_In in Hitem as [Hitem Hcand].
  rewrite Forall_forall in Hall.
  destruct (Hall item) as [text Htext]; [by apply list_elem_of_In|done|].
  unfold iterdir in Hitems.
  destruct (stat E (repo_root E)) as [[| |ch]|] eqn:Hroot; try done.
  injection Hitems as <-.
  apply in_map_iff in Hitem as ([child n] & <- & _). cbn [fst] in *.
  unfold candidate in Hcand. rewrite name_snoc in Hcand.
  apply andb_true_iff in Hcand as [[Hdir Hends]%andb_true_iff Hdoc].
  exists child, text. rewrite <- app_assoc in Htext. cbn [app] in Htext.
  split; [done|]. split; [done|]. split; [done|].
  unfold entry, make_skill, get, text_of.
  rewrite <- !app_assoc. cbn [app]. by rewrite Htext, name_snoc.
Qed.


(** X7: every entry of a scan stands for a directory directly under
    the root whose name ends in [-skill] and whose [SKILL.md] could be
    read; its [directory] is that name, its [path] the path of that
    file, and each of [name], [description], [version] and
    [activation] is the header field of that name when the header has
    it, and otherwise the directory name, [No description], [1.0] and
    the empty string. *)
Theorem scan_entry_fields E skills skill :
  get_all_skills E = Ok skills -> skill ∈ skills ->
  exists child text,
    is_dir E (repo_root E ++ [child]) = true
    /\ endswith "-skill" child = true
    /\ open_read E (repo_root E ++ [child; "SKILL.md"]) = Ok text
    /\ skill =
       {| Skill.directory := child;
          Skill.path := str (repo_root E ++ [child; "SKILL.md"]);
          Skill.name := default child (parse_text text !! "name");
          Skill.description :=
            default "No description" (parse_text text !! "description");
          Skill.version := default "1.0" (parse_text text !! "version");
          Skill.activation := default "" (parse_text text !! "activation") |}.
Proof. apply scan_entry_shape. Qed.

Lemma scan_entry_fields_witness :
  exists child text,
    is_dir Examples.unlocked_env ["repo"; child] = true
    /\ endswith "-skill" child = true
    /\ open_read Examples.unlocked_env ["repo"; child; "SKILL.md"] = Ok text
    /\ Skill.Make "c-skill" "/repo/c-skill/SKILL.md" "c-skill"
                  "No description" "1.0" ""
       = {| Skill.directory := child;
            Skill.path := str ["repo"; child; "SKILL.md"];
            Skill.name := default child (parse_text text !! "name");
            Skill.description :=
              default "No description" (parse_text text !! "description");
            Skill.version := default "1.0" (parse_text text !! "version");
            Skill.activation :=
              default "" (parse_text text !! "activation") |}.
Proof.
  refine (scan_entry_fields Examples.unlocked_env _ _ _ _).
  - vm_compute. reflexivity.
  - do 2 apply list_elem_of_further. apply list_elem_of_here.
Defined.



End scan_props.

(** ** Further properties of the resolver and of search *)

Section resolver_props.
Import PyStr Pathlib LoadSkill Spec Props.

Lemma split_app sep a b :
  free_of sep a = true -> split sep (a +:+ String sep b) = a :: split sep b.
Proof.
  induction a as [|c a IH]; rewrite ?str_app_nil_l, ?str_app_cons.
  - intros _. simpl. by rewrite Ascii.eqb_refl.
  - simpl. intros [Hc Ha]%andb_true_iff. apply negb_true_iff in Hc.
    by rewrite Hc, IH.
Qed.

Lemma render_cons seg p : render (seg :: p) = String "/" (seg +:+ render p).
Proof. reflexivity. Qed.

Lemma split_render seg p :
  free_of "/" seg = true -> Forall (fun s => free_of "/" s = true) p ->
  split "/" (seg +:+ render p) = seg :: p.
Proof.
  intros Hseg Hp. revert seg Hseg.
  induction Hp as [|x p Hx _ IH]; intros seg Hseg.
  - change (render []) with "". rewrite str_app_nil_r. by apply split_free.
  - rewrite render_cons, split_app by done. by rewrite IH.
Qed.

Lemma proper_free seg : proper seg = true -> free_of "/" seg = true.
Proof. unfold proper. by intros [[? _]%andb_true_iff _]%andb_true_iff. Qed.

Lemma filter_proper p :
  Forall (fun s => proper s = true) p ->
  List.filter (fun w => negb (w =? "") && negb (w =? ".")) p = p.
Proof.
  induction 1 as [|x p Hx _ IH]; [done|]. simpl.
  unfold proper in Hx. apply andb_true_iff in Hx as [[_ H1]%andb_true_iff H2].
  by rewrite H1, H2, IH.
Qed.

Lemma parse_str_proper p :
  Forall (fun s => proper s = true) p -> parse (str p) = p.
Proof.
  intros Hp. destruct Hp as [|x p Hx Hp]; [done|].
  unfold str, parse. rewrite render_cons.
  change (split "/" (String "/" ?r)) with ("" :: split "/" r).
  rewrite split_render.
  - cbn [List.filter String.eqb negb andb].
    change (List.filter ?f (x :: p)) with (List.filter f ([x] ++ p)).
    by apply (filter_proper (x :: p)); constructor.
  - by apply proper_free.
  - eapply Forall_impl; [exact Hp|]. apply proper_free.
Qed.


(** X9: [Path(str(p))] is [p] again, for every path whose segments are
    names a directory can hold (or [..]): the [path] an entry records
    as text leads back to the path it was made from. *)
Theorem path_of_str p :
  Forall (fun s => proper s = true) p -> parse (str p) = p.
Proof. apply parse_str_proper. Qed.

Lemma path_of_str_witness :
  parse (str ["repo"; ".."; "repo"; "a-skill"; "SKILL.md"])
  = ["repo"; ".."; "repo"; "a-skill"; "SKILL.md"].
Proof. apply path_of_str. repeat constructor. Defined.

Lemma lookup_child_proper seg ch n :
  proper_node (Dir ch) = true -> lookup_child seg ch = Some n ->
  proper seg = true /\ proper_node n = true.
Proof.
  simpl. induction ch as [|[m x] ch IH]; [done|]. simpl.
  intros [[[Hm _]%andb_true_iff Hx]%andb_true_iff Hch]%andb_true_iff.
  destruct (String.eqb_spec m seg) as [->|_]; [|by apply IH].
  by intros [= <-].
Qed.

(** Resolution in a tree of proper names follows proper segments (or
    [..]) only. *)
Lemma walk_proper up cur p n :
  Forall (fun d => proper_node d = true) up -> proper_node cur = true ->
  walk up cur p = Some n ->
  proper_node n = true /\ Forall (fun s => proper s = true) p.
Proof.
  revert up cur. induction p as [|seg p IH]; intros up cur Hup Hcur.
  - by intros [= <-].
  - simpl. destruct cur as [| |ch]; [done..|].
    destruct (String.eqb_spec seg "..") as [->|_].
    + destruct Hup as [|parent up Hparent Hup]; intros Hw.
      * destruct (IH [] (Dir ch)) as [? ?]; [constructor|done|done|].
        split; [done|]. by constructor.
      * destruct (IH up parent) as [? ?]; [done|done|done|].
        split; [done|]. by constructor.
    + destruct (lookup_child seg ch) as [m|] eqn:Hm; [|done]. intros Hw.
      destruct (lookup_child_proper _ _ _ Hcur Hm) as [Hseg Hwf].
      destruct (IH (Dir ch :: up) m) as [? ?]; [by constructor|done|done|].
      split; [done|]. by constructor.
Qed.

Lemma exists_proper E p :
  proper_fs E = true -> exists_ E p = true ->
  Forall (fun s => proper s = true) p.
Proof.
  unfold proper_fs, exists_, stat. intros Hwf.
  destruct (walk [] (Dir (slash E)) p) as [n|] eqn:Hw; [|done]. intros _.
  by destruct (walk_proper _ _ _ _ ltac:(constructor) Hwf Hw).
Qed.

Lemma probe_some E d p :
  probe E d = Some p -> p = d ++ ["SKILL.md"] /\ exists_ E p = true.
Proof.
  unfold probe.
  destruct (exists_ E d); [|done].
  destruct (exists_ E (d ++ ["SKILL.md"])) eqn:Hdoc; [|done].
  by intros [= <-].
Qed.

Lemma fuzzy_some skill_name skills p :
  fuzzy skill_name skills = Some p ->
  exists skill,
    skill ∈ skills /\ icontains skill_name (Skill.name skill)
    /\ p = parse (Skill.path skill).
Proof.
  induction skills as [|skill skills IH]; [done|]. simpl.
  destruct (contains (lower skill_name) (lower (Skill.name skill))) eqn:Hc.
  - intros [= <-]. exists skill. split; [apply list_elem_of_here|].
    split; [by apply contains_icontains|done].
  - intros (s & Hs & Hrest)%IH. exists s.
    split; [by apply list_elem_of_further|done].
Qed.


Lemma find_skill_path_miss E skill_name :
  probes_miss E skill_name ->
  find_skill_path E skill_name
  = skills ← get_all_skills E; Ok (fuzzy skill_name skills).
Proof.
  intros [Hexact Hsuffix]. unfold find_skill_path. rewrite Hexact.
  destruct (endswith "-skill" skill_name); [done|].
  by rewrite Hsuffix.
Qed.

Lemma find_skill_path_hit E skill_name :
  probes_miss E skill_name
  \/ exists d, find_skill_path E skill_name = Ok (Some (d ++ ["SKILL.md"]))
               /\ exists_ E (d ++ ["SKILL.md"]) = true.
Proof.
  unfold probes_miss, find_skill_path.
  destruct (probe E (joinpath (repo_root E) skill_name)) as [p|] eqn:Hexact.
  { right. apply probe_some in Hexact as [-> ?]. eauto. }
  destruct (endswith "-skill" skill_name); simpl.
  { left. by split. }
  destruct (probe E (joinpath (repo_root E) (skill_name +:+ "-skill")))
    as [p|] eqn:Hsuffix.
  - right. apply probe_some in Hsuffix as [-> ?]. eauto.
  - left. by split.
Qed.

(** X10: in a file system of proper names, a path the resolver returns
    exists and is a [SKILL.md], whichever of the three steps found it;
    so what the resolver hands on is never a dangling path. *)
Theorem resolved_path_exists E skill_name p :
  proper_fs E = true ->
  find_skill_path E skill_name = Ok (Some p) ->
  exists_ E p = true /\ name p = "SKILL.md".
Proof.
  intros Hwf Hfind.
  destruct (find_skill_path_hit E skill_name) as [Hmiss|(d & Hhit & Hd)].
  - rewrite (find_skill_path_miss E skill_name Hmiss) in Hfind.
    destruct (get_all_skills E) as [skills|e] eqn:Hscan; [|done].
    simpl in Hfind. injection Hfind as Hfuzzy.
    apply fuzzy_some in Hfuzzy as (skill & Hin & _ & ->).
    destruct (scan_entry_shape E skills skill Hscan Hin)
      as (child & text & _ & _ & Hopen & ->).
    cbn [Skill.path].
    assert (exists_ E (repo_root E ++ [child; "SKILL.md"]) = true) as Hex.
    { unfold exists_. unfold open_read in Hopen.
      by destruct (stat E (repo_root E ++ [child; "SKILL.md"])). }
    rewrite parse_str_proper by by apply (exists_proper E).
    split; [done|].
    change [child; "SKILL.md"] with ([child] ++ ["SKILL.md"]).
    rewrite app_assoc. apply name_snoc.
  - rewrite Hhit in Hfind. injection Hfind as <-.
    split; [done|apply name_snoc].
Qed.

Lemma resolved_path_exists_witness :
  find_skill_path Examples.great_env "great"
  = Ok (Some ["repo"; "a-skill"; "SKILL.md"])
  /\ exists_ Examples.great_env ["repo"; "a-skill"; "SKILL.md"] = true.
Proof.
  assert (find_skill_path Examples.great_env "great"
          = Ok (Some ["repo"; "a-skill"; "SKILL.md"])) as Hfind
    by (vm_compute; reflexivity).
  split; [exact Hfind|].
  exact (proj1 (resolved_path_exists Examples.great_env "great" _
                  eq_refl Hfind)).
Defined.

(** X11: a probe that finds its [SKILL.md] decides the resolution by
    itself: the path is returned without a scan, so also when a scan
    would raise. When both probes miss, the resolver raises exactly
    when the scan it then runs raises, and with the error of the scan. *)
Theorem resolver_raises_iff E skill_name :
  (forall p,
     probe E (joinpath (repo_root E) skill_name) = Some p ->
     find_skill_path E skill_name = Ok (Some p))
  /\ (forall p,
        probe E (joinpath (repo_root E) skill_name) = None ->
        endswith "-skill" skill_name = false ->
        probe E (joinpath (repo_root E) (skill_name +:+ "-skill")) = Some p ->
        find_skill_path E skill_name = Ok (Some p))
  /\ (probes_miss E skill_name ->
      forall e,
        find_skill_path E skill_name = Raise e <-> get_all_skills E = Raise e).
Proof.
  split; [|split].
  - intros p Hexact. unfold find_skill_path. by rewrite Hexact.
  - intros p Hexact Hends Hsuffix. unfold find_skill_path.
    by rewrite Hexact, Hends, Hsuffix.
  - intros Hmiss e. rewrite (find_skill_path_miss E _ Hmiss).
    destruct (get_all_skills E); simpl; split; congruence.
Qed.

Lemma resolver_raises_iff_witness :
  get_all_skills Examples.locked_env = Raise PermissionError
  /\ find_skill_path Examples.locked_env "deploy" = Raise PermissionError
  /\ find_skill_path Examples.locked_env "a"
     = Ok (Some ["repo"; "a-skill"; "SKILL.md"]).
Proof.
  destruct (resolver_raises_iff Examples.locked_env "deploy")
    as (_ & _ & Hmiss).
  destruct (resolver_raises_iff Examples.locked_env "a") as (_ & Hsuffix & _).
  split; [vm_compute; reflexivity|]. split.
  - apply Hmiss; [|vm_compute; reflexivity].
    split; [vm_compute; reflexivity|intros _; vm_compute; reflexivity].
  - apply Hsuffix; vm_compute; reflexivity.
Defined.



(** X13: a search for the empty keyword returns the whole catalog,
    in its order, and raises when the scan raises. *)
Theorem search_empty_keyword E : search_skills E "" = get_all_skills E.
Proof.
  unfold search_skills. destruct (get_all_skills E) as [skills|e]; [|done].
  simpl. f_equal. induction skills as [|skill skills IH]; [done|].
  simpl. unfold keyword_matches at 1. by rewrite contains_empty, IH.
Qed.

(** X14: what the fuzzy step resolves a name to is an entry that a
    search for the same word returns: when both probes miss and the
    resolver returns a path, that path is the recorded path of an entry
    among the search results. *)
Theorem fuzzy_hit_is_a_search_result E skill_name p :
  probes_miss E skill_name ->
  find_skill_path E skill_name = Ok (Some p) ->
  exists matches skill,
    search_skills E skill_name = Ok matches
    /\ skill ∈ matches /\ p = parse (Skill.path skill).
Proof.
  intros Hmiss Hfind. rewrite (find_skill_path_miss E _ Hmiss) in Hfind.
  unfold search_skills.
  destruct (get_all_skills E) as [skills|e]; [|done]. simpl in *.
  injection Hfind as Hfuzzy.
  apply fuzzy_some in Hfuzzy as (skill & Hin & Hname & ->).
  eexists _, skill. split; [done|]. split; [|done].
  apply list_elem_of_In, filter_In. split; [by apply list_elem_of_In|].
  apply keyword_matches_spec. by left.
Qed.

Lemma fuzzy_hit_is_a_search_result_witness :
  exists matches skill,
    search_skills Examples.great_env "great" = Ok matches
    /\ skill ∈ matches
    /\ ["repo"; "a-skill"; "SKILL.md"] = parse (Skill.path skill).
Proof.
  apply (fuzzy_hit_is_a_search_result Examples.great_env "great").
  - split; [vm_compute; reflexivity|intros _; vm_compute; reflexivity].
  - vm_compute. reflexivity.
Defined.

End resolver_props.

(** ** Properties of the commands *)

Section command_props.
Import PyStr Pathlib LoadSkill Spec Props Colors Cli.

Lemma read_cons_line l ls : foldr String.append "" (l :: ls)
                            = l +:+ foldr String.append "" ls.
Proof. reflexivity. Qed.

Lemma read_no_cr text : free_of CR text = true -> read text = text.
Proof.
  unfold read. induction text as [|c text IH]; [done|].
  cbn [free_of]. intros [Hc Htext]%andb_true_iff.
  apply negb_true_iff in Hc. cbn [readlines]. rewrite Hc.
  destruct (Ascii.eqb c LF) eqn:Hlf.
  - apply Ascii.eqb_eq in Hlf as ->. rewrite read_cons_line, IH by done.
    reflexivity.
  - specialize (IH Htext).
    destruct (readlines text) as [|l ls].
    + simpl in IH. by rewrite <- IH.
    + rewrite read_cons_line in *. by rewrite str_app_cons, IH.
Qed.

Lemma read_lines ls :
  foldr String.append "" (List.map (fun l => l +:+ nl) ls) = join_lines nl ls.
Proof.
  induction ls as [|l ls IH]; [done|].
  cbn [List.map join_lines foldr]. by rewrite str_app_assoc, IH.
Qed.

(** X15: reading a document for display or for the clipboard turns the
    line endings [\r\n] and [\r] into [\n]; a document without [\r]
    is read as it is. *)
Theorem read_normalises_line_endings ls text :
  Forall (fun l => one_line l = true) ls ->
  read (join_lines CRLF ls) = join_lines nl ls
  /\ read (join_lines (String CR "") ls) = join_lines nl ls
  /\ (free_of CR text = true -> read text = text).
Proof.
  intros Hls. destruct (readlines_join ls Hls) as (H1 & H2 & _).
  unfold read. rewrite H1, H2, !read_lines.
  split; [done|]. split; [done|]. apply read_no_cr.
Qed.

Lemma read_normalises_line_endings_witness :
  read (join_lines CRLF ["---"; "name: x"; "---"])
  = join_lines nl ["---"; "name: x"; "---"].
Proof.
  exact (proj1 (read_normalises_line_endings ["---"; "name: x"; "---"] ""
                  ltac:(repeat constructor))).
Defined.

Lemma show_skill_found E skill_name p text :
  find_skill_path E skill_name = Ok (Some p) ->
  open_read E p = Ok text ->
  show_skill E skill_name
  = Ok [Stdout (nl +:+ BOLD +:+ HEADER +:+ "Skill Content:" +:+ ENDC +:+ " "
                +:+ skill_name);
        Stdout (rule +:+ nl);
        Stdout (read text);
        Stdout (nl +:+ rule +:+ nl)].
Proof.
  intros Hfind Hopen. unfold show_skill, read_file.
  by rewrite Hfind; simpl; rewrite Hopen.
Qed.

(** X16: [show] prints the whole document, header included and
    nothing altered (for a text without [\r]), between its banner and
    its closing rule. *)
Theorem show_prints_whole_document E skill_name p text :
  find_skill_path E skill_name = Ok (Some p) ->
  open_read E p = Ok text ->
  free_of CR text = true ->
  show_skill E skill_name
  = Ok [Stdout (nl +:+ BOLD +:+ HEADER +:+ "Skill Content:" +:+ ENDC +:+ " "
                +:+ skill_name);
        Stdout (rule +:+ nl);
        Stdout text;
        Stdout (nl +:+ rule +:+ nl)].
Proof.
  intros Hfind Hopen Hcr.
  by rewrite (show_skill_found E skill_name p text), read_no_cr.
Qed.

Lemma show_prints_whole_document_witness :
  show_skill Examples.foo_env "foo"
  = Ok [Stdout (nl +:+ BOLD +:+ HEADER +:+ "Skill Content:" +:+ ENDC +:+ " foo");
        Stdout (rule +:+ nl);
        Stdout (Examples.named "Foo");
        Stdout (nl +:+ rule +:+ nl)].
Proof.
  apply (show_prints_whole_document Examples.foo_env "foo"
           ["repo"; "foo-skill"; "SKILL.md"] (Examples.named "Foo"));
    vm_compute; reflexivity.
Defined.

(** X18: the probes test for existence only. When the [SKILL.md] they
    find cannot be opened (it is a directory, or access is refused),
    [show] and [copy] raise the error of [open]. *)
Theorem unreadable_probe_hit_raises E H skill_name e :
  exists_ E (joinpath (repo_root E) skill_name ++ ["SKILL.md"]) = true ->
  open_read E (joinpath (repo_root E) skill_name ++ ["SKILL.md"]) = Raise e ->
  show_skill E skill_name = Raise e
  /\ copy_to_clipboard E H skill_name = Raise e.
Proof.
  intros Hdoc Hopen.
  assert (find_skill_path E skill_name
          = Ok (Some (joinpath (repo_root E) skill_name ++ ["SKILL.md"])))
    as Hfind.
  { unfold find_skill_path. by rewrite probe_found. }
  unfold show_skill, copy_to_clipboard, read_file.
  rewrite Hfind. simpl. by rewrite Hopen.
Qed.

Lemma unreadable_probe_hit_raises_witness :
  show_skill Inputs.nested_env "odd-skill" = Raise IsADirectoryError
  /\ copy_to_clipboard Inputs.nested_env Inputs.linux "odd-skill"
     = Raise IsADirectoryError.
Proof.
  apply (unreadable_probe_hit_raises Inputs.nested_env Inputs.linux
           "odd-skill" IsADirectoryError); reflexivity.
Defined.

Lemma copy_found E H skill_name p text :
  find_skill_path E skill_name = Ok (Some p) ->
  open_read E p = Ok text ->
  copy_to_clipboard E H skill_name
  = match clipboard_tool (platform H) with
    | None => Ok (copied H)
    | Some tool =>
        match subprocess_run H tool (read text) with
        | Completed => Ok (Subprocess tool (read text) :: copied H)
        | CalledProcessError | ToolNotFound =>
            Ok [Subprocess tool (read text);
                Stdout (YELLOW
                        +:+ "Warning: Could not copy to clipboard automatically."
                        +:+ ENDC);
                Stdout (CYAN +:+ "Manual copy: cat " +:+ str p
                        +:+ " | pbcopy" +:+ ENDC)]
        | Uncaught e => Raise e
        end
    end.
Proof.
  intros Hfind Hopen. unfold copy_to_clipboard, read_file.
  rewrite Hfind. simpl. rewrite Hopen. simpl.
  destruct (clipboard_tool (platform H)) as [tool|]; [|done].
  by destruct (subprocess_run H tool (read text)).
Qed.

Lemma clipboard_tool_none platform :
  clipboard_tool platform = None <->
  platform <> "darwin" /\ platform <> "linux" /\ platform <> "win32".
Proof.
  unfold clipboard_tool.
  destruct (String.eqb_spec platform "darwin"); [by split; [|intros [? _]]|].
  destruct (String.eqb_spec platform "linux");
    [by split; [|intros (_ & ? & _)]|].
  destruct (String.eqb_spec platform "win32");
    [by split; [|intros (_ & _ & ?)]|].
  done.
Qed.

(** X19: on a platform that is none of [darwin], [linux] and [win32],
    [copy] of a skill that resolves runs no tool at all and still
    prints that the content was copied. *)
Theorem copy_without_tool_reports_success E H skill_name p text :
  platform H <> "darwin" -> platform H <> "linux" -> platform H <> "win32" ->
  find_skill_path E skill_name = Ok (Some p) ->
  open_read E p = Ok text ->
  copy_to_clipboard E H skill_name = Ok (copied H)
  /\ Forall (fun ev => forall tool input, ev <> Subprocess tool input)
            (copied H).
Proof.
  intros H1 H2 H3 Hfind Hopen.
  rewrite (copy_found E H skill_name p text) by done.
  rewrite (proj2 (clipboard_tool_none (platform H))) by done.
  split; [done|]. by repeat constructor.
Qed.

Lemma copy_without_tool_reports_success_witness :
  copy_to_clipboard Examples.foo_env Inputs.freebsd "foo"
  = Ok (copied Inputs.freebsd).
Proof.
  refine (proj1 (copy_without_tool_reports_success Examples.foo_env
                   Inputs.freebsd "foo" ["repo"; "foo-skill"; "SKILL.md"]
                   (Examples.named "Foo") _ _ _ _ _));
    first [discriminate | vm_compute; reflexivity].
Defined.



Lemma main_operand E H doc prog cmd a rest :
  main E H doc (prog :: cmd :: a :: rest)
  = if lower cmd =? "list" then out ← list_skills E; Ok (out, 0)
    else if lower cmd =? "show" then out ← show_skill E a; Ok (out, 0)
    else if lower cmd =? "copy" then
      out ← copy_to_clipboard E H a; Ok (out, 0)
    else if lower cmd =? "search" then
      out ← search_command E (join " " (a :: rest)); Ok (out, 0)
    else Ok (print_usage doc, 1).
Proof.
  unfold main. cbn [length Nat.ltb Nat.leb nth drop].
  by rewrite !andb_true_r.
Qed.

Lemma main_no_operand E H doc prog cmd :
  main E H doc [prog; cmd]
  = if lower cmd =? "list" then out ← list_skills E; Ok (out, 0)
    else Ok (print_usage doc, 1).
Proof.
  unfold main. cbn [length Nat.ltb Nat.leb nth drop].
  rewrite !andb_false_r. by destruct (lower cmd =? "list").
Qed.

Lemma status_of_bind {A} (m : result A) out status :
  (out' ← m; Ok (out', 0)) = Ok (out, status) -> status = 0.
Proof. destruct m; simpl; congruence. Qed.

(** X21: [main] ends with exit status 1 exactly on the command lines
    it answers with the usage text (no command word, an unknown word,
    or [show], [copy], [search] without an operand); every other
    command line that does not raise ends with status 0. *)
Theorem main_exit_status E H doc argv :
  (needs_usage argv = true -> main E H doc argv = Ok (print_usage doc, 1))
  /\ (needs_usage argv = false ->
      forall out status, main E H doc argv = Ok (out, status) -> status = 0).
Proof.
  destruct argv as [|prog [|cmd [|a rest]]]; try by split.
  - rewrite main_no_operand. cbn [needs_usage].
    destruct (lower cmd =? "list"); split; try done.
    intros _ out status. apply status_of_bind.
  - rewrite main_operand. cbn [needs_usage].
    destruct (lower cmd =? "list").
    { split; [done|]. intros _ out status. apply status_of_bind. }
    destruct (lower cmd =? "show").
    { split; [done|]. intros _ out status. apply status_of_bind. }
    destruct (lower cmd =? "copy").
    { split; [done|]. intros _ out status. apply status_of_bind. }
    destruct (lower cmd =? "search").
    { split; [done|]. intros _ out status. apply status_of_bind. }
    by split.
Qed.

Lemma main_exit_status_witness :
  main Examples.foo_env Inputs.linux "usage" ["load-skill.py"; "show"]
  = Ok ([Stdout "usage"], 1).
Proof.
  apply (proj1 (main_exit_status Examples.foo_env Inputs.linux "usage"
                  ["load-skill.py"; "show"])).
  reflexivity.
Defined.

(** X22: a name that resolves to nothing is no failure of the process:
    [show] prints its two lines and [copy] its one line about the skill
    not found, with the name as it was typed, and [main] ends with exit
    status 0. *)
Theorem main_not_found_exits_zero E H doc prog cmd skill_name rest :
  find_skill_path E skill_name = Ok None ->
  (lower cmd = "show" ->
   main E H doc (prog :: cmd :: skill_name :: rest)
   = Ok ([Stdout (RED +:+ "Error: Skill '" +:+ skill_name +:+ "' not found."
                  +:+ ENDC);
          Stdout ("Use '" +:+ CYAN +:+ "python load-skill.py list" +:+ ENDC
                  +:+ "' to see available skills.")], 0))
  /\ (lower cmd = "copy" ->
      main E H doc (prog :: cmd :: skill_name :: rest)
      = Ok ([Stdout (RED +:+ "Error: Skill '" +:+ skill_name +:+ "' not found."
                     +:+ ENDC)], 0)).
Proof.
  intros Hfind. rewrite main_operand.
  unfold show_skill, copy_to_clipboard. rewrite Hfind.
  split; intros ->; reflexivity.
Qed.

Lemma main_not_found_exits_zero_witness :
  main Examples.foo_env Inputs.linux "usage"
       ["load-skill.py"; "Show"; "Deploy"]
  = Ok ([Stdout (RED +:+ "Error: Skill 'Deploy' not found." +:+ ENDC);
         Stdout ("Use '" +:+ CYAN +:+ "python load-skill.py list" +:+ ENDC
                 +:+ "' to see available skills.")], 0).
Proof.
  apply (proj1 (main_not_found_exits_zero Examples.foo_env Inputs.linux
                  "usage" "load-skill.py" "Show" "Deploy" []
                  ltac:(vm_compute; reflexivity))).
  reflexivity.
Defined.

Lemma lower_char_idem c : lower_char (lower_char c) = lower_char c.
Proof. destruct c as [[] [] [] [] [] [] [] []]; reflexivity. Qed.

Lemma lower_idem s : lower (lower s) = lower s.
Proof.
  induction s as [|c s IH]; [done|]. simpl. by rewrite lower_char_idem, IH.
Qed.

(** X23: how [main] reads its command line. The command word is taken
    without regard to case and the program name is not looked at; the
    operands of [search] are joined by single spaces into one keyword;
    [show] and [copy] use their first operand and ignore the others;
    [list] ignores all operands. *)
Theorem main_reads_arguments E H doc prog prog' cmd a rest :
  main E H doc (prog :: cmd :: a :: rest)
  = main E H doc (prog' :: lower cmd :: a :: rest)
  /\ (lower cmd = "search" ->
      main E H doc (prog :: cmd :: a :: rest)
      = main E H doc [prog; cmd; join " " (a :: rest)])
  /\ (lower cmd = "show" \/ lower cmd = "copy" ->
      main E H doc (prog :: cmd :: a :: rest) = main E H doc [prog; cmd; a])
  /\ (lower cmd = "list" ->
      main E H doc (prog :: cmd :: a :: rest) = main E H doc [prog; cmd]).
Proof.
  rewrite !main_operand, main_no_operand, lower_idem.
  split; [done|]. split; [|split].
  - by intros ->.
  - by intros [-> | ->].
  - by intros ->.
Qed.

Lemma main_reads_arguments_witness :
  main Examples.hinted_env Inputs.linux "usage"
       ["load-skill.py"; "SEARCH"; "user"; "says"]
  = main Examples.hinted_env Inputs.linux "usage"
         ["load-skill.py"; "SEARCH"; "user says"].
Proof.
  apply (proj1 (proj2 (main_reads_arguments Examples.hinted_env Inputs.linux
                         "usage" "load-skill.py" "" "SEARCH" "user" ["says"]))).
  reflexivity.
Defined.

Lemma list_loop_length i skills :
  length (list_loop i skills) = 5 * length skills.
Proof.
  revert i. induction skills as [|skill skills IH]; intros i; [done|].
  cbn [list_loop length app]. rewrite IH. lia.
Qed.

Lemma list_loop_lookup i skills k skill :
  skills !! k = Some skill ->
  list_loop i skills !! (5 * k)
  = Some (Stdout (BOLD +:+ pretty (i + k) +:+ ". " +:+ Skill.name skill
                  +:+ ENDC)).
Proof.
  revert i k. induction skills as [|s0 skills IH]; intros i k; [done|].
  destruct k as [|k].
  - intros [= ->]. by rewrite Nat.add_0_r.
  - intros Hk. replace (5 * S k) with (S (S (S (S (S (5 * k)))))) by lia.
    cbn [list_loop app lookup list_lookup].
    etransitivity; [exact (IH (S i) k Hk)|].
    by replace (S i + k) with (i + S k) by lia.
Qed.

Lemma lookup_framed {A} (a b : A) (mid tail : list A) n x :
  mid !! n = Some x -> ([a; b] ++ mid ++ tail) !! (n + 2) = Some x.
Proof.
  intros Hn. replace (n + 2) with (S (S n)) by lia.
  change (([a; b] ++ mid ++ tail) !! S (S n)) with ((mid ++ tail) !! n).
  by apply lookup_app_l_Some.
Qed.

Lemma last_framed {A} (a b : A) (mid front : list A) :
  last (front ++ mid ++ [a; b]) = Some b.
Proof.
  change [a; b] with ([a] ++ [b]). by rewrite !app_assoc, last_snoc.
Qed.

Lemma list_skills_ok E skills :
  get_all_skills E = Ok skills ->
  list_skills E
  = Ok ([Stdout (nl +:+ BOLD +:+ HEADER +:+ "Claude Skills Collection" +:+ ENDC);
         Stdout (rule +:+ nl)]
        ++ list_loop 1 skills
        ++ [Stdout rule;
            Stdout ("Total skills: " +:+ pretty (length skills) +:+ nl)]).
Proof. intros Hscan. unfold list_skills. by rewrite Hscan. Qed.

(** X24: [list] numbers the entries of the catalog from 1, in the
    sorted order of the scan, prints five lines for each between two
    lines of heading and two of footing, and ends with the number of
    entries. *)
Theorem list_numbers_entries E skills :
  get_all_skills E = Ok skills ->
  exists out,
    list_skills E = Ok out
    /\ length out = 5 * length skills + 4
    /\ (forall k skill,
          skills !! k = Some skill ->
          out !! (5 * k + 2)
          = Some (Stdout (BOLD +:+ pretty (S k) +:+ ". " +:+ Skill.name skill
                          +:+ ENDC)))
    /\ last out
       = Some (Stdout ("Total skills: " +:+ pretty (length skills) +:+ nl)).
Proof.
  intros Hscan. rewrite (list_skills_ok E skills Hscan).
  eexists. split; [done|]. split; [|split].
  - rewrite !length_app, list_loop_length. simpl. lia.
  - intros k skill Hk. apply lookup_framed.
    by rewrite (list_loop_lookup 1 skills k skill Hk).
  - apply last_framed.
Qed.

Lemma list_numbers_entries_witness :
  exists out,
    list_skills Examples.abc_env = Ok out
    /\ length out = 19
    /\ out !! 7 = Some (Stdout (BOLD +:+ "2. Zeta" +:+ ENDC))
    /\ last out = Some (Stdout ("Total skills: 3" +:+ nl)).
Proof.
  destruct (list_numbers_entries Examples.abc_env _
              ltac:(vm_compute; reflexivity))
    as (out & Hout & Hlen & Hnum & Hlast).
  exists out. split; [exact Hout|]. split; [exact Hlen|].
  split; [|exact Hlast]. exact (Hnum 1 _ eq_refl).
Defined.

Lemma search_loop_length matches :
  length (search_loop matches) = 4 * length matches.
Proof.
  induction matches as [|skill matches IH]; [done|].
  cbn [search_loop length app]. rewrite IH. lia.
Qed.

(** X25: [search] prints the single line that no skills were found,
    with the keyword as it was typed, exactly when no entry matches;
    otherwise it prints four lines for each match between two lines of
    heading and one of footing, which reports the number of matches. *)
Theorem search_reports_matches E keyword matches :
  search_skills E keyword = Ok matches ->
  exists out,
    search_command E keyword = Ok out
    /\ (matches = [] ->
        out = [Stdout (YELLOW +:+ "No skills found matching '" +:+ keyword
                       +:+ "'." +:+ ENDC)])
    /\ (matches <> [] ->
        length out = 4 * length matches + 3
        /\ last out
           = Some (Stdout (CYAN +:+ "Found " +:+ pretty (length matches)
                           +:+ " matching skill(s)." +:+ ENDC +:+ nl))).
Proof.
  intros Hsearch. unfold search_command. rewrite Hsearch.
  destruct matches as [|skill matches].
  - eexists. split; [done|]. by split.
  - eexists. split; [reflexivity|]. split; [done|]. intros _. split.
    + rewrite !length_app, search_loop_length. simpl. lia.
    + change [?a] with ([] ++ [a]) at 2. by rewrite !app_assoc, last_snoc.
Qed.

Lemma search_reports_matches_witness :
  search_command Examples.great_env "Deploy"
  = Ok [Stdout (YELLOW +:+ "No skills found matching 'Deploy'." +:+ ENDC)].
Proof.
  destruct (search_reports_matches Examples.great_env "Deploy" []
              ltac:(vm_compute; reflexivity))
    as (out & -> & Hnone & _).
  by rewrite Hnone.
Defined.

End command_props.
